(** * Grid canvas layout: [napari/components/grid.py]

    A shallow embedding of the [GridCanvas] class and a verification of its
    sizing and placement arithmetic, at two levels.

    The first level, the definitions [actual_size] and [position] of
    [Section Grid], is the class with the arithmetic its text is written
    for: unbounded integers and exact ceilings.  The second level, the
    module [NumPy], is the class as Python 3 and NumPy 2 run it on a 64-bit
    platform: double-precision quotients and square roots, [int64] results
    of [astype(int)] with their wrap-around, and the [OverflowError] of
    Python's division.  The lemma [np_actual_size_exact] says where the two
    levels agree.  What a double that is not finite, or that is beyond the
    [int64] range, becomes under [astype(int)] depends on the platform; it
    is the variable [nonfinite_cast] of both levels. *)

From Stdlib Require Import ZArith Lia List Bool.
Import ListNotations.
Local Open Scope Z_scope.

(** ** Outcomes of a Python call *)

Inductive PyError : Set :=
| ZeroDivisionError
| OverflowError.

Inductive result (A : Type) : Type :=
| Ok (a : A)
| Raise (e : PyError).

Arguments Ok {A} a.
Arguments Raise {A} e.

Definition bind {A B : Type} (c : result A) (k : A -> result B) : result B :=
  match c with
  | Ok a => k a
  | Raise e => Raise e
  end.

Declare Scope py_scope.
Delimit Scope py_scope with py.
Notation "x <- c ;; k" := (bind c (fun x => k))
  (at level 61, c at next level, right associativity) : py_scope.
Notation "' pat <- c ;; k" := (bind c (fun x => match x with pat => k end))
  (at level 61, pat pattern, c at next level, right associativity) : py_scope.
Local Open Scope py_scope.

(** ** Integer operators of Python *)

(** [a // b] on Python integers: floor division, which is [Z.div]. *)
Definition py_floordiv (a b : Z) : result Z :=
  if b =? 0 then Raise ZeroDivisionError else Ok (a / b).

(** [a % b] on Python integers: the remainder has the sign of [b], as
    [Z.modulo]. *)
Definition py_mod (a b : Z) : result Z :=
  if b =? 0 then Raise ZeroDivisionError else Ok (a mod b).

(** The exact ceiling of the rational [a / b], for [b <> 0]. *)
Definition ceil_quot (a b : Z) : Z := - ((- a) / b).

(** The exact ceiling of the real square root of [n], for [0 <= n]. *)
Definition ceil_root (n : Z) : Z :=
  let s := Z.sqrt n in
  if s * s =? n then s else s + 1.

(** [np.ceil(a / b).astype(int)] for two Python integers, with the exact
    ceiling: the true division is Python's and raises on a zero divisor.
    [NumPy.py_truediv] below is the division with its rounding. *)
Definition py_ceil_truediv (a b : Z) : result Z :=
  if b =? 0 then Raise ZeroDivisionError else Ok (ceil_quot a b).

(** ** Events *)

Inductive GridEvent : Set :=
| Update.

(** ** The class *)

Record GridCanvas : Set := mkGridCanvas {
  enabled : bool;
  stride : Z;
  size : Z * Z;
  events : list GridEvent
}.

(** [__init__(self, *, size=(-1, -1), stride=1, enabled=False)] *)
Definition init (size0 : Z * Z) (stride0 : Z) (enabled0 : bool) : GridCanvas :=
  {| enabled := enabled0; stride := stride0; size := size0; events := [] |}.

Definition default : GridCanvas := init (-1, -1) 1 false.

(** [self.events.update()] *)
Definition events_update (g : GridCanvas) : GridCanvas :=
  {| enabled := enabled g; stride := stride g; size := size g;
     events := events g ++ [Update] |}.

(** [@enabled.setter] *)
Definition enabled_setter (v : bool) (g : GridCanvas) : result GridCanvas :=
  let g := {| enabled := v; stride := stride g; size := size g;
              events := events g |} in
  Ok (events_update g).

(** [@stride.setter] *)
Definition stride_setter (v : Z) (g : GridCanvas) : result GridCanvas :=
  let g := {| enabled := enabled g; stride := v; size := size g;
              events := events g |} in
  Ok (events_update g).

(** The same configuration with another stride. *)
Definition with_stride (s : Z) (g : GridCanvas) : GridCanvas :=
  {| enabled := enabled g; stride := s; size := size g; events := events g |}.

(** What x86-64 makes of a non-finite float cast to a 64-bit integer. *)
Definition INT64_MIN : Z := - 2 ^ 63.

(** * Visual dispatch: [napari/_vispy/utils.py] *)

(** The layer classes and the visual classes that the module names. *)
Inductive LayerClass : Set :=
| Image | Points | Shapes | Surface | Vectors | Tracks | OctreeImage.

Inductive VisualClass : Set :=
| VispyImageLayer | VispyPointsLayer | VispyShapesLayer | VispySurfaceLayer
| VispyVectorsLayer | VispyTracksLayer | VispyTiledImageLayer.

Definition LayerClass_eqb (a b : LayerClass) : bool :=
  match a, b with
  | Image, Image | Points, Points | Shapes, Shapes | Surface, Surface
  | Vectors, Vectors | Tracks, Tracks | OctreeImage, OctreeImage => true
  | _, _ => false
  end.

(** A Python [dict] from layer classes to visual classes: the items in
    insertion order, one per key. *)
Definition VisualDict : Set := list (LayerClass * VisualClass).

(** [d[k] = v]: an existing key keeps its place and takes the new value, a
    new key goes last. *)
Fixpoint dict_setitem (k : LayerClass) (v : VisualClass) (d : VisualDict)
  : VisualDict :=
  match d with
  | [] => [(k, v)]
  | (k', v') :: d' =>
      if LayerClass_eqb k k' then (k, v) :: d'
      else (k', v') :: dict_setitem k v d'
  end.

(** [d.update(other)] *)
Definition dict_update (d other : VisualDict) : VisualDict :=
  fold_left (fun acc kv => dict_setitem (fst kv) (snd kv) acc) other d.

(** The module-level table, as the import leaves it for either value of
    [config.async_octree]. *)
Definition layer_to_visual (async_octree : bool) : VisualDict :=
  let layer_to_visual :=
    [ (Image, VispyImageLayer);
      (Points, VispyPointsLayer);
      (Shapes, VispyShapesLayer);
      (Surface, VispySurfaceLayer);
      (Vectors, VispyVectorsLayer);
      (Tracks, VispyTracksLayer) ] in
  if async_octree then
    let new_order := [ (OctreeImage, VispyTiledImageLayer) ] in
    let new_order := dict_update new_order layer_to_visual in
    new_order
  else layer_to_visual.

(** What a call of [create_vispy_visual] ends in: the visual built by
    [visual_class(layer)], or the [TypeError] about the layer. *)
Inductive VisualResult (L : Type) : Type :=
| Visual (visual_class : VisualClass) (layer : L)
| RaiseTypeError (layer : L).

Arguments Visual {L} visual_class layer.
Arguments RaiseTypeError {L} layer.

(** The loop [for layer_type, visual_class in layer_to_visual.items()],
    over the items still to visit.  The classes of the layers are declared
    outside this module: a layer is any value [layer : L], and
    [isinstance layer layer_type] says whether it is an instance. *)
Fixpoint create_from {L : Type} (isinstance : L -> LayerClass -> bool)
  (items : VisualDict) (layer : L) : VisualResult L :=
  match items with
  | [] => RaiseTypeError layer
  | (layer_type, visual_class) :: items' =>
      if isinstance layer layer_type then Visual visual_class layer
      else create_from isinstance items' layer
  end.

(** [create_vispy_visual(layer)] *)
Definition create_vispy_visual {L : Type}
  (isinstance : L -> LayerClass -> bool) (async_octree : bool) (layer : L)
  : VisualResult L :=
  create_from isinstance (layer_to_visual async_octree) layer.

(** A class hierarchy for concrete runs: a layer is given by its own
    class, and [OctreeImage] derives from [Image]. *)
Definition isinstance_by_class (layer : LayerClass) (layer_type : LayerClass)
  : bool :=
  LayerClass_eqb layer layer_type
  || (LayerClass_eqb layer OctreeImage && LayerClass_eqb layer_type Image).

(** * The class as NumPy runs it *)

(** The definitions of this module follow [grid.py] operation by
    operation with the arithmetic that Python 3 and NumPy 2 give it on a
    64-bit platform: Python integers are unbounded, [astype(int)] yields
    [numpy.int64] scalars whose products wrap modulo [2^64], a Python
    integer that meets a NumPy scalar is first converted to [int64] and
    raises [OverflowError] when it does not fit, and quotients and square
    roots are IEEE 754 double precision, rounded to nearest, ties to even. *)
Module NumPy.

(** An integer of the program with its run-time type. *)
Inductive Int : Set :=
| PyInt (z : Z)
| Int64 (z : Z).

Definition value (x : Int) : Z :=
  match x with
  | PyInt z => z
  | Int64 z => z
  end.

Definition fits_int64 (z : Z) : bool := (- 2 ^ 63 <=? z) && (z <? 2 ^ 63).

(** Two's complement wrap-around of a 64-bit result. *)
Definition wrap_int64 (z : Z) : Z := (z + 2 ^ 63) mod 2 ^ 64 - 2 ^ 63.

(** The operand of a NumPy scalar operation, as an [int64]. *)
Definition as_int64 (x : Int) : result Z :=
  match x with
  | Int64 z => Ok z
  | PyInt z => if fits_int64 z then Ok z else Raise OverflowError
  end.

(** [a * b] *)
Definition int_mul (a b : Int) : result Int :=
  match a, b with
  | PyInt x, PyInt y => Ok (PyInt (x * y))
  | _, _ =>
      x <- as_int64 a ;;
      y <- as_int64 b ;;
      Ok (Int64 (wrap_int64 (x * y)))
  end.

(** [a // b]: between NumPy integers a zero divisor gives 0 and a
    warning. *)
Definition int_floordiv (a b : Int) : result Int :=
  match a, b with
  | PyInt x, PyInt y => q <- py_floordiv x y ;; Ok (PyInt q)
  | _, _ =>
      x <- as_int64 a ;;
      y <- as_int64 b ;;
      Ok (Int64 (if y =? 0 then 0 else wrap_int64 (x / y)))
  end.

(** [a % b] *)
Definition int_mod (a b : Int) : result Int :=
  match a, b with
  | PyInt x, PyInt y => r <- py_mod x y ;; Ok (PyInt r)
  | _, _ =>
      x <- as_int64 a ;;
      y <- as_int64 b ;;
      Ok (Int64 (if y =? 0 then 0 else x mod y))
  end.

(** [max(1, x)]: the first argument unless the second is greater. *)
Definition max_1 (x : Int) : Int := if 1 <? value x then x else PyInt 1.

(** A double: the finite value [m * 2^e], or an infinity or a NaN. *)
Inductive float64 : Set :=
| Finite (m e : Z)
| NonFinite.

(** [n / d] rounded to the nearest integer, ties to even, for [0 <= n] and
    [0 < d]. *)
Definition round_half_even (n d : Z) : Z :=
  let q := n / d in
  let r := n mod d in
  if 2 * r <? d then q
  else if d <? 2 * r then q + 1
  else if Z.even q then q
  else q + 1.

(** The fraction [n / (d * 2^e)] as a pair of integers. *)
Definition scale (n d e : Z) : Z * Z :=
  if 0 <=? e then (n, d * 2 ^ e) else (n * 2 ^ (- e), d).

(** The exponent of the last place of the double nearest [n / d], for
    [0 < n] and [0 < d]: the significand has 53 bits, and the exponent
    does not go below that of the subnormal numbers. *)
Definition ulp_exponent (n d : Z) : Z :=
  let e := Z.log2 n - Z.log2 d - 52 in
  let '(n', d') := scale n d e in
  let e := if n' / d' <? 2 ^ 52 then e - 1 else e in
  Z.max e (- 1074).

(** The double nearest [n / d], for [0 < n] and [0 < d], as significand
    and exponent; [None] when it is beyond the largest double. *)
Definition round_quotient (n d : Z) : option (Z * Z) :=
  let e := ulp_exponent n d in
  let '(n', d') := scale n d e in
  let m := round_half_even n' d' in
  if 2 ^ 1024 <=? m * 2 ^ e then None else Some (m, e).

(** The correctly rounded quotient of two integers, [d <> 0]. *)
Definition float_div (n d : Z) : option float64 :=
  if n =? 0 then Some (Finite 0 0)
  else
    match round_quotient (Z.abs n) (Z.abs d) with
    | Some (m, e) => Some (Finite (Z.sgn n * Z.sgn d * m) e)
    | None => None
    end.

(** [a / b] on two Python integers: the quotient is rounded once, from
    the exact integers. *)
Definition py_truediv (a b : Z) : result float64 :=
  if b =? 0 then Raise ZeroDivisionError
  else
    match float_div a b with
    | Some q => Ok q
    | None => Raise OverflowError
    end.

(** The integer that the double nearest an [int64] denotes. *)
Definition float_of_int64 (z : Z) : Z :=
  if Z.abs z <? 2 ^ 53 then z
  else
    let sh := Z.log2 (Z.abs z) - 52 in
    Z.sgn z * round_half_even (Z.abs z) (2 ^ sh) * 2 ^ sh.

(** [a / b] where [a] is a NumPy integer: both operands become doubles,
    and a zero divisor gives an infinity or a NaN, with a warning. *)
Definition np_truediv (a b : Z) : float64 :=
  let x := float_of_int64 a in
  let y := float_of_int64 b in
  if y =? 0 then NonFinite
  else
    match float_div x y with
    | Some q => q
    | None => NonFinite
    end.

(** [np.sqrt(a)] where [a] is a NumPy integer, hence below [2^64] and
    with a shift [t] of at least 20. *)
Definition np_sqrt (a : Z) : float64 :=
  let x := float_of_int64 a in
  if x <? 0 then NonFinite
  else if x =? 0 then Finite 0 0
  else
    let t := 52 - Z.log2 x / 2 in
    let r := x * 4 ^ t in
    let m := Z.sqrt r in
    Finite (if m <? r - m * m then m + 1 else m) (- t).

Section Platform.

(** The integer that [astype(int)] makes of a double that is not finite
    or is beyond the [int64] range. *)
Variable nonfinite_cast : Z.

(** [np.ceil(x).astype(int)] *)
Definition ceil_astype_int (x : float64) : Z :=
  match x with
  | NonFinite => nonfinite_cast
  | Finite m e =>
      let c := if 0 <=? e then m * 2 ^ e else ceil_quot m (2 ^ (- e)) in
      if fits_int64 c then c else nonfinite_cast
  end.

(** [GridCanvas.actual_size], with the run-time types of the two
    results. *)
Definition actual_size_typed (g : GridCanvas) (nlayers : Z)
  : result (Int * Int) :=
  if enabled g then
    let '(n_row, n_column) := size g in
    quotient <- py_truediv nlayers (Z.abs (stride g)) ;;
    let n_grid_squares := ceil_astype_int quotient in
    '(n_row, n_column) <-
      (if (n_row =? -1) && (n_column =? -1) then
         let n_column := ceil_astype_int (np_sqrt n_grid_squares) in
         let n_row :=
           ceil_astype_int (np_truediv n_grid_squares n_column) in
         Ok (Int64 n_row, Int64 n_column)
       else if n_row =? -1 then
         divisor <- as_int64 (PyInt n_column) ;;
         let n_row := ceil_astype_int (np_truediv n_grid_squares divisor) in
         Ok (Int64 n_row, PyInt n_column)
       else if n_column =? -1 then
         divisor <- as_int64 (PyInt n_row) ;;
         let n_column :=
           ceil_astype_int (np_truediv n_grid_squares divisor) in
         Ok (PyInt n_row, Int64 n_column)
       else Ok (PyInt n_row, PyInt n_column)) ;;
    let n_row := max_1 n_row in
    let n_column := max_1 n_column in
    Ok (n_row, n_column)
  else Ok (PyInt 1, PyInt 1).

(** [GridCanvas.actual_size] *)
Definition actual_size (g : GridCanvas) (nlayers : Z) : result (Z * Z) :=
  '(n_row, n_column) <- actual_size_typed g nlayers ;;
  Ok (value n_row, value n_column).

(** [GridCanvas.position] *)
Definition position (g : GridCanvas) (index nlayers : Z) : result (Z * Z) :=
  if enabled g then
    '(n_row, n_column) <- actual_size_typed g nlayers ;;
    let adj_i := if stride g <? 0 then nlayers - index - 1 else index in
    adj_i <- py_floordiv adj_i (Z.abs (stride g)) ;;
    cells <- int_mul n_row n_column ;;
    adj_i <- int_mod (PyInt adj_i) cells ;;
    i_row <- int_floordiv adj_i n_column ;;
    i_column <- int_mod adj_i n_column ;;
    Ok (value i_row, value i_column)
  else Ok (0, 0).

End Platform.

End NumPy.

(** * Grid canvas, continued: the two queries *)

(** A requested size that leaves the grid room to grow: at least one
    dimension is the auto sentinel [-1], and the other one is auto too or
    a positive number. *)
Definition auto_sized (g : GridCanvas) : bool :=
  let '(n_row, n_column) := size g in
  ((n_row =? -1) && ((n_column =? -1) || (1 <=? n_column)))
  || ((n_column =? -1) && (1 <=? n_row)).

(** The index after the adjustment for forward or reverse ordering. *)
Definition adjusted (g : GridCanvas) (index nlayers : Z) : Z :=
  if stride g <? 0 then nlayers - index - 1 else index.

(** The first level: the class with exact ceilings and unbounded
    integers.  [Module NumPy] above is the second level. *)

Section Grid.

(** The integer that [astype(int)] makes of a float that is not finite. *)
Variable nonfinite_cast : Z.

(** [np.ceil(a / b).astype(int)] where [a] is a NumPy integer, with the
    exact ceiling: a zero divisor gives [inf] or [nan] and a warning, no
    exception. *)
Definition np_ceil_truediv (a b : Z) : Z :=
  if b =? 0 then nonfinite_cast else ceil_quot a b.

(** [np.ceil(np.sqrt(n)).astype(int)], with the exact ceiling: the square
    root of a negative number is [nan]. *)
Definition np_ceil_sqrt (n : Z) : Z :=
  if n <? 0 then nonfinite_cast else ceil_root n.

(** [GridCanvas.actual_size], with exact ceilings *)
Definition actual_size (g : GridCanvas) (nlayers : Z) : result (Z * Z) :=
  if enabled g then
    let '(n_row, n_column) := size g in
    n_grid_squares <- py_ceil_truediv nlayers (Z.abs (stride g)) ;;
    let '(n_row, n_column) :=
      if (n_row =? -1) && (n_column =? -1) then
        let n_column := np_ceil_sqrt n_grid_squares in
        let n_row := np_ceil_truediv n_grid_squares n_column in
        (n_row, n_column)
      else if n_row =? -1 then
        let n_row := np_ceil_truediv n_grid_squares n_column in
        (n_row, n_column)
      else if n_column =? -1 then
        let n_column := np_ceil_truediv n_grid_squares n_row in
        (n_row, n_column)
      else (n_row, n_column) in
    let n_row := Z.max 1 n_row in
    let n_column := Z.max 1 n_column in
    Ok (n_row, n_column)
  else Ok (1, 1).

(** [GridCanvas.position], on unbounded integers *)
Definition position (g : GridCanvas) (index nlayers : Z) : result (Z * Z) :=
  if enabled g then
    '(n_row, n_column) <- actual_size g nlayers ;;
    let adj_i := if stride g <? 0 then nlayers - index - 1 else index in
    adj_i <- py_floordiv adj_i (Z.abs (stride g)) ;;
    adj_i <- py_mod adj_i (n_row * n_column) ;;
    i_row <- py_floordiv adj_i n_column ;;
    i_column <- py_mod adj_i n_column ;;
    Ok (i_row, i_column)
  else Ok (0, 0).

(** ** The specification's formulas *)

(** The sizing rule in the specification's words.  The ceilings are
    given by what makes a number the ceiling of a quotient or of a square
    root, not by a way to compute it: [c - 1 < n / d <= c], for a
    divisor of either sign.  A zero divisor has no quotient and asks
    nothing. *)
Definition is_ceiling_of_quotient (n d c : Z) : Prop :=
  (0 < d -> (c - 1) * d < n <= c * d) /\
  (d < 0 -> c * d <= n < (c - 1) * d).

Definition is_ceiling_of_root (n c : Z) : Prop :=
  0 <= c /\ (c - 1) * (c - 1) < n <= c * c.

Definition effective_size_rel (g : GridCanvas) (nlayers rows cols : Z)
  : Prop :=
  exists n_cells,
    is_ceiling_of_quotient nlayers (Z.abs (stride g)) n_cells /\
    let rows_requested := fst (size g) in
    let cols_requested := snd (size g) in
    exists rows0 cols0,
      rows = Z.max 1 rows0 /\ cols = Z.max 1 cols0 /\
      (rows_requested = -1 /\ cols_requested = -1 ->
       is_ceiling_of_root n_cells cols0 /\
       is_ceiling_of_quotient n_cells cols0 rows0) /\
      (rows_requested = -1 /\ cols_requested <> -1 ->
       is_ceiling_of_quotient n_cells cols_requested rows0 /\
       cols0 = cols_requested) /\
      (rows_requested <> -1 /\ cols_requested = -1 ->
       is_ceiling_of_quotient n_cells rows_requested cols0 /\
       rows0 = rows_requested) /\
      (rows_requested <> -1 /\ cols_requested <> -1 ->
       rows0 = rows_requested /\ cols0 = cols_requested).

(** The placement rule in the specification's words, for a grid of
    [rows] by [cols] cells. *)
Definition position_spec (g : GridCanvas) (rows cols index nlayers : Z)
  : Z * Z :=
  let remapped := if stride g <? 0 then nlayers - index - 1 else index in
  let slot := (remapped / Z.abs (stride g)) mod (rows * cols) in
  (slot / cols, slot mod cols).


(** ** Arithmetic of the ceilings *)

Lemma ceil_quot_bounds (a b : Z) :
  0 < b -> (ceil_quot a b - 1) * b < a <= ceil_quot a b * b.
Proof.
  intros Hb. unfold ceil_quot.
  pose proof (Z.div_mod (- a) b ltac:(lia)) as Hdm.
  pose proof (Z.mod_pos_bound (- a) b Hb) as Hm.
  nia.
Qed.

Lemma ceil_quot_pos (a b : Z) : 0 < b -> 1 <= a -> 1 <= ceil_quot a b.
Proof.
  intros Hb Ha. pose proof (ceil_quot_bounds a b Hb) as [_ Hu]. nia.
Qed.

Lemma ceil_quot_nonneg (a b : Z) : 0 < b -> 0 <= a -> 0 <= ceil_quot a b.
Proof.
  intros Hb Ha. pose proof (ceil_quot_bounds a b Hb) as [_ Hu]. nia.
Qed.

Lemma ceil_root_bounds (n : Z) :
  1 <= n ->
  1 <= ceil_root n /\
  (ceil_root n - 1) * (ceil_root n - 1) < n <= ceil_root n * ceil_root n.
Proof.
  intros Hn. unfold ceil_root.
  pose proof (Z.sqrt_spec n ltac:(lia)) as Hs.
  pose proof (Z.sqrt_nonneg n) as H0.
  cbv zeta in *. generalize dependent (Z.sqrt n). intros s Hs H0.
  destruct (Z.eqb_spec (s * s) n) as [He | Hne].
  - assert (s <> 0) by (intros E; rewrite E in He; lia). nia.
  - nia.
Qed.

(** ** What the two queries return *)

Lemma np_ceil_truediv_nonzero (a b : Z) :
  b <> 0 -> np_ceil_truediv a b = ceil_quot a b.
Proof.
  intros Hb. unfold np_ceil_truediv.
  destruct (Z.eqb_spec b 0); [contradiction | reflexivity].
Qed.

Lemma py_ceil_truediv_nonzero (a b : Z) :
  b <> 0 -> py_ceil_truediv a b = Ok (ceil_quot a b).
Proof.
  intros Hb. unfold py_ceil_truediv.
  destruct (Z.eqb_spec b 0); [contradiction | reflexivity].
Qed.

Lemma py_floordiv_nonzero (a b : Z) : b <> 0 -> py_floordiv a b = Ok (a / b).
Proof.
  intros Hb. unfold py_floordiv.
  destruct (Z.eqb_spec b 0); [contradiction | reflexivity].
Qed.

Lemma py_mod_nonzero (a b : Z) : b <> 0 -> py_mod a b = Ok (a mod b).
Proof.
  intros Hb. unfold py_mod.
  destruct (Z.eqb_spec b 0); [contradiction | reflexivity].
Qed.



Lemma position_spec_bounds (g : GridCanvas) (rows cols index nlayers : Z) :
  1 <= rows -> 1 <= cols ->
  0 <= fst (position_spec g rows cols index nlayers) < rows /\
  0 <= snd (position_spec g rows cols index nlayers) < cols.
Proof.
  intros Hr Hc. unfold position_spec. cbn [fst snd].
  set (slot := (_ / _) mod (rows * cols)).
  assert (Hslot : 0 <= slot < rows * cols)
    by (apply Z.mod_pos_bound; nia).
  split.
  - split.
    + apply Z.div_pos; lia.
    + apply Z.div_lt_upper_bound; nia.
  - apply Z.mod_pos_bound; lia.
Qed.


(** ** Placement *)



(** ** Degenerate configurations *)

(** C6.  With the grid disabled, whatever the stored size and stride, the
    number of layers [nlayers >= 0] and the index, [actual_size] returns
    [(1, 1)] and [position] returns [(0, 0)]. *)
Theorem disabled_single_cell (g : GridCanvas) (index nlayers : Z) :
  enabled g = false ->
  0 <= nlayers ->
  actual_size g nlayers = Ok (1, 1) /\ position g index nlayers = Ok (0, 0).
Proof.
  intros He _. unfold position, actual_size. rewrite He. split; reflexivity.
Qed.

(** ** A concrete scenario *)

(** C8, amended.  Enabled, both dimensions auto, stride 1 and five layers:
    [actual_size(5)] is [(2, 3)], two rows of three columns, and the
    positions of the indices 0, 2 and 4 are [(0, 0)], [(0, 2)] and
    [(1, 1)]. *)
Theorem scenario_five_layers :
  actual_size (init (-1, -1) 1 true) 5 = Ok (2, 3) /\
  position (init (-1, -1) 1 true) 0 5 = Ok (0, 0) /\
  position (init (-1, -1) 1 true) 2 5 = Ok (0, 2) /\
  position (init (-1, -1) 1 true) 4 5 = Ok (1, 1).
Proof.
  repeat split; reflexivity.
Qed.

(** ** The stride setter and a zero stride *)

(** C9, amended.  For every prior configuration, the stride setter called
    with 0 does not raise: it returns, the stored stride is then 0, the
    enabled flag and the size are the ones from before the call, and one
    update event has been emitted. *)
Theorem stride_setter_zero_stored (g : GridCanvas) :
  exists g',
    stride_setter 0 g = Ok g' /\
    stride g' = 0 /\
    enabled g' = enabled g /\
    size g' = size g /\
    events g' = events g ++ [Update].
Proof.
  eexists. split; [reflexivity |]. cbn. repeat split.
Qed.

(** C10.  The stride setter accepts 0 and stores it, and in the stored
    state of an enabled configuration, for every [nlayers >= 1] and every
    index, both [actual_size] and [position] end in the division by
    [abs(stride) = 0], which raises [ZeroDivisionError]. *)
Theorem zero_stride_division_reachable (g : GridCanvas) (index nlayers : Z) :
  enabled g = true ->
  1 <= nlayers ->
  exists g',
    stride_setter 0 g = Ok g' /\
    stride g' = 0 /\
    enabled g' = true /\
    actual_size g' nlayers = Raise ZeroDivisionError /\
    position g' index nlayers = Raise ZeroDivisionError.
Proof.
  intros He _. eexists. split; [reflexivity |].
  unfold position, actual_size. cbn [events_update enabled stride size].
  rewrite He. destruct (size g) as [r c]. cbn. repeat split.
Qed.

(** ** More on placement: what the queries do beyond the claims *)

Lemma slot_below_cells (a n s : Z) :
  0 < s -> a < n -> a / s < ceil_quot n s.
Proof.
  intros Hs Han.
  pose proof (Z.mul_div_le a s Hs) as Hle.
  pose proof (ceil_quot_bounds n s Hs) as [_ Hu].
  nia.
Qed.

Lemma adjusted_in_range (g : GridCanvas) (index nlayers : Z) :
  0 <= index < nlayers -> 0 <= adjusted g index nlayers < nlayers.
Proof.
  intros Hi. unfold adjusted. destruct (stride g <? 0); lia.
Qed.

Lemma position_spec_adjusted (g : GridCanvas) (rows cols index nlayers : Z) :
  position_spec g rows cols index nlayers =
  (((adjusted g index nlayers / Z.abs (stride g)) mod (rows * cols)) / cols,
   ((adjusted g index nlayers / Z.abs (stride g)) mod (rows * cols))
     mod cols).
Proof. reflexivity. Qed.

(** In a grid with a cell for every group of layers, the cell of a valid
    index determines the group of the index. *)
Lemma position_spec_roundtrip (g : GridCanvas) (rows cols index nlayers : Z) :
  stride g <> 0 ->
  1 <= rows -> 1 <= cols ->
  0 <= index < nlayers ->
  ceil_quot nlayers (Z.abs (stride g)) <= rows * cols ->
  fst (position_spec g rows cols index nlayers) * cols +
  snd (position_spec g rows cols index nlayers) =
  adjusted g index nlayers / Z.abs (stride g).
Proof.
  intros Hs Hr Hc Hi Hroom.
  rewrite position_spec_adjusted. cbn [fst snd].
  pose proof (adjusted_in_range g index nlayers Hi) as [Ha0 Ha1].
  set (a := adjusted g index nlayers) in *.
  set (s := Z.abs (stride g)) in *.
  assert (Hs0 : 0 < s) by (subst s; lia).
  assert (Hlo : 0 <= a / s) by (apply Z.div_pos; lia).
  pose proof (slot_below_cells a nlayers s Hs0 Ha1) as Hhi.
  rewrite (Z.mod_small (a / s) (rows * cols)) by lia.
  pose proof (Z.div_mod (a / s) cols ltac:(lia)) as Hdm. lia.
Qed.

(** An auto-sized grid has a cell for every group of layers. *)
Lemma actual_size_auto_room (g : GridCanvas) (nlayers : Z) :
  enabled g = true ->
  stride g <> 0 ->
  1 <= nlayers ->
  auto_sized g = true ->
  exists rows cols,
    actual_size g nlayers = Ok (rows, cols) /\
    1 <= rows /\ 1 <= cols /\
    ceil_quot nlayers (Z.abs (stride g)) <= rows * cols.
Proof.
  intros He Hs Hn Hauto. unfold actual_size, auto_sized in *.
  rewrite He. destruct (size g) as [r c].
  rewrite py_ceil_truediv_nonzero by lia. cbn [bind].
  set (n := ceil_quot nlayers (Z.abs (stride g))).
  assert (Hn1 : 1 <= n) by (apply ceil_quot_pos; lia).
  destruct (Z.eqb_spec r (-1)) as [Hr | Hr];
    destruct (Z.eqb_spec c (-1)) as [Hc | Hc];
    cbn [andb orb] in *.
  - unfold np_ceil_sqrt.
    destruct (Z.ltb_spec n 0) as [Hneg | _]; [lia |].
    destruct (ceil_root_bounds n Hn1) as [Hc1 _].
    rewrite np_ceil_truediv_nonzero by lia.
    pose proof (ceil_quot_bounds n (ceil_root n) ltac:(lia)) as [_ Hu].
    eexists; eexists. split; [reflexivity |]. nia.
  - destruct (Z.leb_spec 1 c) as [Hc1 | Hc1]; [| discriminate Hauto].
    rewrite np_ceil_truediv_nonzero by lia.
    pose proof (ceil_quot_bounds n c ltac:(lia)) as [_ Hu].
    eexists; eexists. split; [reflexivity |]. nia.
  - destruct (Z.leb_spec 1 r) as [Hr1 | Hr1]; [| discriminate Hauto].
    rewrite np_ceil_truediv_nonzero by lia.
    pose proof (ceil_quot_bounds n r ltac:(lia)) as [_ Hu].
    eexists; eexists. split; [reflexivity |]. nia.
  - discriminate Hauto.
Qed.



(** * The class as NumPy runs it: proofs *)

(** ** Rounding *)

Lemma ceil_quot_unique (m T c : Z) :
  0 < T -> (c - 1) * T < m <= c * T -> ceil_quot m T = c.
Proof.
  intros HT Hc. pose proof (ceil_quot_bounds m T HT) as Hk. nia.
Qed.

Lemma round_half_even_cases (n d : Z) :
  0 < d ->
  (NumPy.round_half_even n d = n / d /\ 2 * (n mod d) <= d) \/
  (NumPy.round_half_even n d = n / d + 1 /\ d <= 2 * (n mod d)).
Proof.
  intros Hd. unfold NumPy.round_half_even. cbv zeta.
  destruct (Z.ltb_spec (2 * (n mod d)) d) as [H1 | H1]; [left; lia |].
  destruct (Z.ltb_spec d (2 * (n mod d))) as [H2 | H2]; [right; lia |].
  destruct (Z.even (n / d)); [left | right]; lia.
Qed.

(** A correctly rounded quotient of an integer below [2^53] has the
    ceiling of the exact quotient: the rounding error is too small to
    reach the integer below. *)
Lemma round_ceil_exact (a b T : Z) :
  1 <= a < 2 ^ 53 -> 1 <= b -> 1 <= T ->
  2 ^ 52 <= a * T / b ->
  ceil_quot (NumPy.round_half_even (a * T) b) T = ceil_quot a b.
Proof.
  intros Ha Hb HT Hnorm.
  pose proof (ceil_quot_bounds a b ltac:(lia)) as [Hcl Hcu].
  set (c := ceil_quot a b) in *.
  pose proof (Z.div_mod (a * T) b ltac:(lia)) as Hdm.
  pose proof (Z.mod_pos_bound (a * T) b ltac:(lia)) as Hr.
  set (m0 := a * T / b) in *. set (r := (a * T) mod b) in *.
  change (2 ^ 53) with 9007199254740992 in *.
  change (2 ^ 52) with 4503599627370496 in *.
  assert (Hup : m0 <= c * T) by nia.
  assert (Hlo : (c - 1) * T <= m0) by nia.
  apply ceil_quot_unique; [lia |].
  destruct (round_half_even_cases (a * T) b ltac:(lia)) as [[-> H2r] | [-> H2r]];
    fold m0 r in H2r |- *.
  - split; [| exact Hup].
    destruct (Z.eq_dec m0 ((c - 1) * T)) as [Heq | Hne]; [| lia].
    exfalso.
    assert (Hr' : r = T * (a - (c - 1) * b)) by nia.
    assert (Hc1 : 1 <= c - 1) by nia.
    assert (HrT : T <= r) by nia.
    assert (Hb2 : b * (c - 1) < 2 * ((c - 1) * T)) by nia.
    assert (b < 2 * T) by nia.
    lia.
  - split; [lia |].
    assert (0 < r) by lia.
    assert (m0 * b < c * T * b) by nia.
    assert (m0 < c * T) by nia.
    lia.
Qed.

Lemma scale_nonpos (n d e : Z) :
  e <= 0 -> NumPy.scale n d e = (n * 2 ^ (- e), d).
Proof.
  intros He. unfold NumPy.scale.
  destruct (Z.leb_spec 0 e) as [H0 | H0]; [| reflexivity].
  assert (e = 0) by lia. subst e.
  change (2 ^ (- 0)) with 1. change (2 ^ 0) with 1.
  rewrite !Z.mul_1_r. reflexivity.
Qed.

Lemma pow2_pos (k : Z) : 0 <= k -> 1 <= 2 ^ k.
Proof.
  intros Hk. pose proof (Z.pow_pos_nonneg 2 k ltac:(lia) Hk). lia.
Qed.

(** The double nearest [a / b], for [a] below [2^53]: the quotient is
    scaled up by a power of two [2^t] that brings its integer part to 53
    bits, and rounded there. *)
Lemma round_quotient_small (a b : Z) :
  1 <= a < 2 ^ 53 -> 1 <= b < 2 ^ 1000 ->
  exists t,
    0 <= t /\
    NumPy.round_quotient a b =
      Some (NumPy.round_half_even (a * 2 ^ t) b, - t) /\
    2 ^ 52 <= a * 2 ^ t / b < 2 ^ 53.
Proof.
  intros Ha Hb.
  pose proof (Z.log2_spec a ltac:(lia)) as Hla.
  pose proof (Z.log2_spec b ltac:(lia)) as Hlb.
  pose proof (Z.log2_nonneg a) as Hla0.
  pose proof (Z.log2_nonneg b) as Hlb0.
  assert (Hla52 : Z.log2 a <= 52).
  { apply Z.lt_succ_r. apply (Z.log2_lt_pow2 a 53); lia. }
  assert (Hlb999 : Z.log2 b <= 999).
  { apply Z.lt_succ_r. apply (Z.log2_lt_pow2 b 1000); lia. }
  set (la := Z.log2 a) in *. set (lb := Z.log2 b) in *.
  set (t0 := 52 + lb - la).
  assert (Ht0 : 0 <= t0) by (subst t0; lia).
  assert (HT0 : 2 ^ t0 * 2 ^ la = 2 ^ 52 * 2 ^ lb).
  { rewrite <- !Z.pow_add_r by lia. f_equal. subst t0. lia. }
  replace (Z.succ la) with (la + 1) in Hla by lia.
  replace (Z.succ lb) with (lb + 1) in Hlb by lia.
  rewrite Z.pow_add_r in Hla, Hlb by lia.
  change (2 ^ 1) with 2 in Hla, Hlb.
  pose proof (pow2_pos t0 Ht0) as HT0pos.
  pose proof (pow2_pos la Hla0) as HApos.
  pose proof (pow2_pos lb Hlb0) as HPpos.
  set (T0 := 2 ^ t0) in *. set (A := 2 ^ la) in *. set (P := 2 ^ lb) in *.
  change (2 ^ 52) with 4503599627370496 in HT0 |- *.
  change (2 ^ 53) with 9007199254740992 in Ha |- *.
  assert (Hlow0 : 2251799813685248 <= a * T0 / b).
  { apply Z.div_le_lower_bound; nia. }
  assert (Hup0 : a * T0 / b < 9007199254740992).
  { apply Z.div_lt_upper_bound; nia. }
  assert (Hscale0 : NumPy.scale a b (la - lb - 52) = (a * T0, b)).
  { rewrite scale_nonpos by lia. subst T0 t0. do 3 f_equal. lia. }
  assert (Hfinal : forall t,
             0 <= t -> t <= 1052 ->
             4503599627370496 <= a * 2 ^ t / b < 9007199254740992 ->
             NumPy.ulp_exponent a b = - t ->
             NumPy.round_quotient a b =
               Some (NumPy.round_half_even (a * 2 ^ t) b, - t)).
  { intros t Ht Ht' Hnorm Hexp. unfold NumPy.round_quotient.
    rewrite Hexp. cbv zeta. rewrite scale_nonpos by lia.
    replace (- - t) with t by lia.
    set (m := NumPy.round_half_even (a * 2 ^ t) b).
    assert (Hm : m <= 9007199254740992).
    { subst m.
      destruct (round_half_even_cases (a * 2 ^ t) b ltac:(lia))
        as [[-> _] | [-> _]]; lia. }
    assert (Hpow : 2 ^ (- t) <= 1).
    { destruct (Z.eq_dec t 0) as [-> | Hne]; [change (2 ^ (- 0)) with 1; lia |].
      rewrite Z.pow_neg_r by lia. lia. }
    assert (Hpow0 : 0 <= 2 ^ (- t)) by (apply Z.pow_nonneg; lia).
    assert (Hm0 : 0 <= m).
    { subst m.
      destruct (round_half_even_cases (a * 2 ^ t) b ltac:(lia))
        as [[-> _] | [-> _]]; lia. }
    assert (Hprod : m * 2 ^ (- t) <= 9007199254740992) by nia.
    assert (Hbig : 9007199254740992 < 2 ^ 1024) by (vm_compute; reflexivity).
    destruct (Z.leb_spec (2 ^ 1024) (m * 2 ^ (- t))) as [Hov | _]; [lia |].
    reflexivity. }
  destruct (Z.ltb_spec (a * T0 / b) 4503599627370496) as [Hsmall | Hnormal].
  - exists (t0 + 1).
    assert (Hpow : 2 ^ (t0 + 1) = 2 * T0).
    { rewrite Z.pow_add_r by lia. change (2 ^ 1) with 2. subst T0. lia. }
    assert (Hnorm : 4503599627370496 <= a * 2 ^ (t0 + 1) / b
                    < 9007199254740992).
    { rewrite Hpow.
      pose proof (Z.mul_div_le (a * T0) b ltac:(lia)) as Hle.
      pose proof (Z.mul_succ_div_gt (a * T0) b ltac:(lia)) as Hgt.
      split.
      - apply Z.div_le_lower_bound; nia.
      - apply Z.div_lt_upper_bound; nia. }
    split; [lia |]. split; [| exact Hnorm].
    apply Hfinal; [lia | subst t0; lia | exact Hnorm |].
    unfold NumPy.ulp_exponent. cbv zeta. fold la lb. rewrite Hscale0.
    destruct (Z.ltb_spec (a * T0 / b) (2 ^ 52)) as [_ | Hge];
      [| change (2 ^ 52) with 4503599627370496 in Hge; lia].
    subst t0. lia.
  - exists t0. fold T0.
    split; [lia |]. split; [| lia].
    apply Hfinal; [lia | subst t0; lia | fold T0; lia |].
    unfold NumPy.ulp_exponent. cbv zeta. fold la lb. rewrite Hscale0.
    destruct (Z.ltb_spec (a * T0 / b) (2 ^ 52)) as [Hlt | _];
      [change (2 ^ 52) with 4503599627370496 in Hlt; lia |].
    subst t0. lia.
Qed.

Lemma ceil_quot_1_r (m : Z) : ceil_quot m 1 = m.
Proof. unfold ceil_quot. rewrite Z.div_1_r. lia. Qed.

Lemma ceil_quot_0_l (b : Z) : ceil_quot 0 b = 0.
Proof. reflexivity. Qed.

Lemma ceil_quot_below (a b : Z) : 1 <= a <= b -> ceil_quot a b = 1.
Proof. intros H. apply ceil_quot_unique; lia. Qed.

Lemma ceil_quot_neg_divisor (a b : Z) : 0 <= a -> b < 0 -> ceil_quot a b <= 0.
Proof.
  intros Ha Hb. unfold ceil_quot.
  pose proof (Z.div_mod (- a) b ltac:(lia)) as Hdm.
  pose proof (Z.mod_neg_bound (- a) b Hb) as Hm.
  nia.
Qed.

Lemma ceil_quot_bounds_neg (a b : Z) :
  b < 0 -> ceil_quot a b * b <= a < (ceil_quot a b - 1) * b.
Proof.
  intros Hb. unfold ceil_quot.
  pose proof (Z.div_mod (- a) b ltac:(lia)) as Hdm.
  pose proof (Z.mod_neg_bound (- a) b Hb) as Hm.
  nia.
Qed.

Lemma fits_int64_true (z : Z) :
  - 2 ^ 63 <= z < 2 ^ 63 -> NumPy.fits_int64 z = true.
Proof.
  intros H. unfold NumPy.fits_int64.
  destruct (Z.leb_spec (- 2 ^ 63) z); [| lia].
  destruct (Z.ltb_spec z (2 ^ 63)); [reflexivity | lia].
Qed.

(** The ceiling that a double [m * 2^(-t)] is cast to. *)
Lemma ceil_astype_int_scaled (m t : Z) :
  0 <= t ->
  - 2 ^ 63 <= ceil_quot m (2 ^ t) < 2 ^ 63 ->
  NumPy.ceil_astype_int nonfinite_cast (NumPy.Finite m (- t)) =
  ceil_quot m (2 ^ t).
Proof.
  intros Ht Hfit. unfold NumPy.ceil_astype_int.
  destruct (Z.leb_spec 0 (- t)) as [H0 | H0].
  - assert (t = 0) by lia. subst t.
    change (2 ^ (- 0)) with 1. change (2 ^ 0) with 1 in Hfit.
    rewrite ceil_quot_1_r in Hfit. rewrite Z.mul_1_r.
    rewrite fits_int64_true by exact Hfit. rewrite ceil_quot_1_r.
    reflexivity.
  - replace (- - t) with t by lia.
    rewrite fits_int64_true by exact Hfit. reflexivity.
Qed.

(** The quotient of a non-negative integer below [2^53] by a positive
    one: its double has the exact ceiling. *)
Lemma float_div_ceil_exact (a b : Z) :
  0 <= a < 2 ^ 53 -> 1 <= b < 2 ^ 1000 ->
  exists q,
    NumPy.float_div a b = Some q /\
    NumPy.ceil_astype_int nonfinite_cast q = ceil_quot a b.
Proof.
  intros Ha Hb. unfold NumPy.float_div.
  destruct (Z.eqb_spec a 0) as [-> | Hne].
  - eexists. split; [reflexivity |]. rewrite ceil_quot_0_l. reflexivity.
  - rewrite (Z.abs_eq a), (Z.abs_eq b) by lia.
    destruct (round_quotient_small a b ltac:(lia) Hb)
      as (t & Ht & -> & Hnorm).
    eexists. split; [reflexivity |].
    rewrite (Z.sgn_pos a), (Z.sgn_pos b) by lia.
    replace (1 * 1 * NumPy.round_half_even (a * 2 ^ t) b)
      with (NumPy.round_half_even (a * 2 ^ t) b) by lia.
    pose proof (pow2_pos t Ht) as HT.
    pose proof (round_ceil_exact a b (2 ^ t) ltac:(lia) ltac:(lia) HT
                  (proj1 Hnorm)) as Hexact.
    pose proof (ceil_quot_bounds a b ltac:(lia)) as Hc.
    change (2 ^ 53) with 9007199254740992 in Ha.
    change (2 ^ 63) with 9223372036854775808.
    rewrite ceil_astype_int_scaled; [exact Hexact | exact Ht |].
    rewrite Hexact. change (2 ^ 63) with 9223372036854775808. nia.
Qed.

(** The quotient of a non-negative integer below [2^53] by a negative
    one is cast to a number that the clamp replaces by 1. *)
Lemma float_div_ceil_negative (a b : Z) :
  0 <= a < 2 ^ 53 -> - 2 ^ 1000 < b < 0 ->
  exists q,
    NumPy.float_div a b = Some q /\
    NumPy.ceil_astype_int nonfinite_cast q <= 0.
Proof.
  intros Ha Hb. unfold NumPy.float_div.
  destruct (Z.eqb_spec a 0) as [-> | Hne].
  - eexists. split; [reflexivity |]. cbn. lia.
  - rewrite (Z.abs_eq a), (Z.abs_neq b) by lia.
    destruct (round_quotient_small a (- b) ltac:(lia) ltac:(lia))
      as (t & Ht & -> & Hnorm).
    eexists. split; [reflexivity |].
    rewrite (Z.sgn_pos a), (Z.sgn_neg b) by lia.
    set (m := NumPy.round_half_even (a * 2 ^ t) (- b)).
    assert (Hm : 0 <= m <= 2 ^ 53).
    { subst m.
      destruct (round_half_even_cases (a * 2 ^ t) (- b) ltac:(lia))
        as [[-> _] | [-> _]]; lia. }
    replace (1 * -1 * m) with (- m) by lia.
    pose proof (pow2_pos t Ht) as HT.
    assert (Hc : - 2 ^ 53 <= ceil_quot (- m) (2 ^ t) <= 0).
    { unfold ceil_quot. rewrite Z.opp_involutive.
      pose proof (Z.div_pos m (2 ^ t) ltac:(lia) ltac:(lia)).
      pose proof (Z.div_le_upper_bound m (2 ^ t) (2 ^ 53) ltac:(lia)
                    ltac:(nia)).
      lia. }
    change (2 ^ 53) with 9007199254740992 in Hc.
    rewrite ceil_astype_int_scaled; [lia | exact Ht |].
    change (2 ^ 63) with 9223372036854775808. lia.
Qed.

Lemma float_of_int64_small (z : Z) :
  Z.abs z < 2 ^ 53 -> NumPy.float_of_int64 z = z.
Proof.
  intros H. unfold NumPy.float_of_int64.
  destruct (Z.ltb_spec (Z.abs z) (2 ^ 53)); [reflexivity | lia].
Qed.

(** An [int64] of 54 bits or more becomes a double of the same sign and
    of at least [2^53]. *)
Lemma float_of_int64_large (z : Z) :
  2 ^ 53 <= z <= 2 ^ 63 ->
  2 ^ 53 <= NumPy.float_of_int64 z <= 2 ^ 64 /\
  NumPy.float_of_int64 (- z) = - NumPy.float_of_int64 z.
Proof.
  intros Hz.
  assert (Hpos : 2 ^ 53 <= NumPy.float_of_int64 z <= 2 ^ 64).
  { unfold NumPy.float_of_int64. rewrite (Z.abs_eq z) by lia.
    destruct (Z.ltb_spec z (2 ^ 53)) as [Hlt | _]; [lia |].
    rewrite Z.sgn_pos by lia.
    pose proof (Z.log2_spec z ltac:(lia)) as Hl.
    assert (Hl53 : 53 <= Z.log2 z) by (apply Z.log2_le_pow2; lia).
    assert (Hl63 : Z.log2 z <= 63).
    { apply Z.lt_succ_r. apply (Z.log2_lt_pow2 z 64); [lia |].
      change (2 ^ 63) with 9223372036854775808 in Hz.
      change (2 ^ 64) with 18446744073709551616. lia. }
    set (l := Z.log2 z) in *. set (sh := l - 52).
    assert (Hsh : 1 <= sh <= 11) by (subst sh; lia).
    assert (HD : 2 ^ sh * 2 ^ 52 = 2 ^ l).
    { rewrite <- Z.pow_add_r by lia. f_equal. subst sh. lia. }
    replace (Z.succ l) with (l + 1) in Hl by lia.
    rewrite Z.pow_add_r in Hl by lia. change (2 ^ 1) with 2 in Hl.
    assert (HD2 : 2 <= 2 ^ sh <= 2 ^ 11).
    { split.
      - change 2 with (2 ^ 1) at 1. apply Z.pow_le_mono_r; lia.
      - apply Z.pow_le_mono_r; lia. }
    set (D := 2 ^ sh) in *. set (L := 2 ^ l) in *.
    change (2 ^ 52) with 4503599627370496 in HD.
    change (2 ^ 11) with 2048 in HD2.
    change (2 ^ 53) with 9007199254740992.
    change (2 ^ 64) with 18446744073709551616.
    assert (Hq : 4503599627370496 <= z / D < 9007199254740992).
    { split.
      - apply Z.div_le_lower_bound; nia.
      - apply Z.div_lt_upper_bound; nia. }
    destruct (round_half_even_cases z D ltac:(lia)) as [[-> _] | [-> _]];
      nia. }
  split; [exact Hpos |].
  unfold NumPy.float_of_int64 in *.
  rewrite Z.abs_opp. rewrite (Z.abs_eq z) in * by lia.
  destruct (Z.ltb_spec z (2 ^ 53)) as [Hlt | _]; [lia |].
  rewrite Z.sgn_opp. lia.
Qed.

(** [np.ceil(a / b).astype(int)] between NumPy integers, for a
    non-negative [a] below [2^53] and an [int64] divisor [b]. *)
Lemma np_truediv_ceil_positive (a b : Z) :
  0 <= a < 2 ^ 53 -> 1 <= b < 2 ^ 63 ->
  NumPy.ceil_astype_int nonfinite_cast (NumPy.np_truediv a b) =
  ceil_quot a b.
Proof.
  intros Ha Hb. unfold NumPy.np_truediv. cbv zeta.
  rewrite (float_of_int64_small a) by lia.
  assert (H1000 : 2 ^ 64 < 2 ^ 1000) by (vm_compute; reflexivity).
  assert (H5363 : 2 ^ 53 < 2 ^ 63 < 2 ^ 64) by (vm_compute; split; reflexivity).
  destruct (Z_lt_le_dec b (2 ^ 53)) as [Hsmall | Hlarge].
  - rewrite (float_of_int64_small b) by lia.
    destruct (Z.eqb_spec b 0) as [? | _]; [lia |].
    destruct (float_div_ceil_exact a b Ha ltac:(lia)) as (q & -> & Hq).
    exact Hq.
  - destruct (float_of_int64_large b ltac:(lia)) as [Hy _].
    set (y := NumPy.float_of_int64 b) in *.
    destruct (Z.eqb_spec y 0) as [? | _]; [lia |].
    destruct (float_div_ceil_exact a y Ha ltac:(lia)) as (q & -> & Hq).
    rewrite Hq.
    destruct (Z.eq_dec a 0) as [-> | Hne]; [reflexivity |].
    rewrite !ceil_quot_below by lia. reflexivity.
Qed.

Lemma np_truediv_ceil_negative (a b : Z) :
  0 <= a < 2 ^ 53 -> - 2 ^ 63 <= b < 0 ->
  NumPy.ceil_astype_int nonfinite_cast (NumPy.np_truediv a b) <= 0.
Proof.
  intros Ha Hb. unfold NumPy.np_truediv. cbv zeta.
  rewrite (float_of_int64_small a) by lia.
  assert (H1000 : 2 ^ 64 < 2 ^ 1000) by (vm_compute; reflexivity).
  assert (H5363 : 2 ^ 53 < 2 ^ 63 < 2 ^ 64) by (vm_compute; split; reflexivity).
  assert (Hy : - 2 ^ 1000 < NumPy.float_of_int64 b < 0).
  { destruct (Z_lt_le_dec (- b) (2 ^ 53)) as [Hsmall | Hlarge].
    - rewrite (float_of_int64_small b) by lia. lia.
    - destruct (float_of_int64_large (- b) ltac:(lia)) as [Hy Hopp].
      rewrite Z.opp_involutive in Hopp. rewrite Hopp. lia. }
  set (y := NumPy.float_of_int64 b) in *.
  destruct (Z.eqb_spec y 0) as [? | _]; [lia |].
  destruct (float_div_ceil_negative a y Ha Hy) as (q & -> & Hq).
  exact Hq.
Qed.

Lemma np_truediv_ceil_zero (a : Z) :
  NumPy.ceil_astype_int nonfinite_cast (NumPy.np_truediv a 0) =
  nonfinite_cast.
Proof. reflexivity. Qed.

(** A correctly rounded square root of an integer up to [2^52] has the
    ceiling of the exact root. *)
Lemma round_sqrt_ceil_exact (x T : Z) :
  1 <= x <= 2 ^ 52 -> 1 <= T ->
  2 ^ 52 <= Z.sqrt (x * (T * T)) ->
  ceil_quot
    (if Z.sqrt (x * (T * T)) <?
        x * (T * T) - Z.sqrt (x * (T * T)) * Z.sqrt (x * (T * T))
     then Z.sqrt (x * (T * T)) + 1 else Z.sqrt (x * (T * T))) T =
  ceil_root x.
Proof.
  intros Hx HT Hnorm.
  destruct (ceil_root_bounds x ltac:(lia)) as (Hc1 & Hcl & Hcu).
  set (c := ceil_root x) in *.
  pose proof (Z.sqrt_spec (x * (T * T)) ltac:(nia)) as Hs.
  cbv zeta in Hs.
  set (r := x * (T * T)) in *. set (m0 := Z.sqrt r) in *.
  replace (Z.succ m0 * Z.succ m0) with (m0 * m0 + 2 * m0 + 1) in Hs by lia.
  change (2 ^ 52) with 4503599627370496 in *.
  assert (Hup : m0 <= c * T) by nia.
  assert (Hlo : (c - 1) * T <= m0) by nia.
  apply ceil_quot_unique; [lia |].
  destruct (Z.ltb_spec m0 (r - m0 * m0)) as [Hround | Hkeep].
  - split; [lia |].
    destruct (Z.eq_dec m0 (c * T)) as [Heq | Hne]; [| lia].
    exfalso. nia.
  - split; [| exact Hup].
    destruct (Z.eq_dec m0 ((c - 1) * T)) as [Heq | Hne]; [| lia].
    exfalso.
    assert (Hc2 : 1 <= c - 1) by nia.
    assert (Hr : r - m0 * m0 = T * T * (x - (c - 1) * (c - 1))) by nia.
    assert (HTT : T * T <= (c - 1) * T) by nia.
    assert (HTc : T <= c - 1) by nia.
    nia.
Qed.

(** [np.ceil(np.sqrt(n)).astype(int)] for [n] up to [2^52]. *)
Lemma np_sqrt_ceil_exact (x : Z) :
  0 <= x <= 2 ^ 52 ->
  NumPy.ceil_astype_int nonfinite_cast (NumPy.np_sqrt x) = ceil_root x.
Proof.
  intros Hx. unfold NumPy.np_sqrt. cbv zeta.
  assert (H5253 : 2 ^ 52 < 2 ^ 53) by (vm_compute; reflexivity).
  rewrite (float_of_int64_small x) by lia.
  destruct (Z.ltb_spec x 0) as [? | _]; [lia |].
  destruct (Z.eqb_spec x 0) as [-> | Hne]; [reflexivity |].
  pose proof (Z.log2_spec x ltac:(lia)) as Hl.
  pose proof (Z.log2_nonneg x) as Hl0.
  assert (Hl52 : Z.log2 x <= 52).
  { destruct (Z.eq_dec x (2 ^ 52)) as [-> | Hne52].
    - rewrite Z.log2_pow2; lia.
    - apply Z.lt_succ_r. apply (Z.log2_lt_pow2 x 53); lia. }
  set (l := Z.log2 x) in *. set (h := l / 2).
  pose proof (Z.div_mod l 2 ltac:(lia)) as Hdm.
  pose proof (Z.mod_pos_bound l 2 ltac:(lia)) as Hmod.
  fold h in Hdm.
  assert (Hh : 0 <= h <= 26) by lia.
  set (t := 52 - h).
  assert (Ht : 0 <= t) by (subst t; lia).
  assert (H4 : 4 ^ t = 2 ^ t * 2 ^ t).
  { change 4 with (2 * 2). apply Z.pow_mul_l. }
  rewrite H4.
  pose proof (pow2_pos t Ht) as HT.
  assert (Hnorm : 2 ^ 52 <= Z.sqrt (x * (2 ^ t * 2 ^ t))).
  { apply Z.sqrt_le_square; [nia | lia |].
    assert (Hpow : 2 ^ (2 * h) * (2 ^ t * 2 ^ t) = 2 ^ 52 * 2 ^ 52).
    { rewrite <- !Z.pow_add_r by lia. f_equal. subst t. lia. }
    assert (Hxl : 2 ^ (2 * h) <= x).
    { transitivity (2 ^ l); [apply Z.pow_le_mono_r; lia | lia]. }
    nia. }
  pose proof (round_sqrt_ceil_exact x (2 ^ t) ltac:(lia) HT Hnorm) as Hexact.
  destruct (ceil_root_bounds x ltac:(lia)) as (Hc1 & Hcl & Hcu).
  rewrite ceil_astype_int_scaled; [exact Hexact | exact Ht |].
  rewrite Hexact.
  change (2 ^ 52) with 4503599627370496 in Hx.
  change (2 ^ 63) with 9223372036854775808. nia.
Qed.

(** ** The queries as NumPy runs them *)

Lemma wrap_int64_fits (z : Z) :
  - 2 ^ 63 <= z < 2 ^ 63 -> NumPy.wrap_int64 z = z.
Proof.
  intros Hz. unfold NumPy.wrap_int64.
  change (2 ^ 64) with (2 * 2 ^ 63).
  rewrite Z.mod_small by lia. lia.
Qed.

Lemma as_int64_PyInt (z : Z) :
  - 2 ^ 63 <= z < 2 ^ 63 -> NumPy.as_int64 (NumPy.PyInt z) = Ok z.
Proof.
  intros Hz. unfold NumPy.as_int64. rewrite fits_int64_true by exact Hz.
  reflexivity.
Qed.

Lemma max_1_spec (x : NumPy.Int) :
  NumPy.as_int64 x = Ok (NumPy.value x) ->
  NumPy.value (NumPy.max_1 x) = Z.max 1 (NumPy.value x) /\
  NumPy.as_int64 (NumPy.max_1 x) = Ok (NumPy.value (NumPy.max_1 x)).
Proof.
  intros Hx. unfold NumPy.max_1.
  destruct (Z.ltb_spec 1 (NumPy.value x)) as [Hgt | Hle].
  - split; [lia | exact Hx].
  - split; [cbn; lia | reflexivity].
Qed.

(** Python's division raises no [OverflowError] below [2^1023]. *)
Lemma round_quotient_no_overflow (n d : Z) :
  1 <= n < 2 ^ 1023 -> 1 <= d ->
  exists m e, NumPy.round_quotient n d = Some (m, e).
Proof.
  intros Hn Hd. unfold NumPy.round_quotient. cbv zeta.
  set (e := NumPy.ulp_exponent n d).
  assert (He : e <= 970).
  { subst e. unfold NumPy.ulp_exponent. cbv zeta.
    assert (Z.log2 n <= 1022).
    { apply Z.lt_succ_r. apply (Z.log2_lt_pow2 n 1023); lia. }
    pose proof (Z.log2_nonneg d).
    destruct (NumPy.scale n d (Z.log2 n - Z.log2 d - 52)) as [n' d'].
    destruct (n' / d' <? 2 ^ 52); lia. }
  assert (Hbig : 2 ^ 1023 + 2 ^ 970 < 2 ^ 1024) by (vm_compute; reflexivity).
  unfold NumPy.scale.
  destruct (Z.leb_spec 0 e) as [He0 | He0].
  - pose proof (pow2_pos e He0) as HE.
    assert (HE970 : 2 ^ e <= 2 ^ 970) by (apply Z.pow_le_mono_r; lia).
    set (E := 2 ^ e) in *.
    set (m := NumPy.round_half_even n (d * E)).
    assert (Hm : m * E <= n + E).
    { subst m.
      pose proof (Z.mul_div_le n (d * E) ltac:(nia)) as Hle.
      assert (Hq : 0 <= n / (d * E)) by (apply Z.div_pos; nia).
      destruct (round_half_even_cases n (d * E) ltac:(nia))
        as [[-> _] | [-> _]]; nia. }
    destruct (Z.leb_spec (2 ^ 1024) (m * E)) as [Hov | _]; [lia |].
    eexists; eexists; reflexivity.
  - rewrite (Z.pow_neg_r 2 e) by lia. rewrite Z.mul_0_r.
    destruct (Z.leb_spec (2 ^ 1024) 0) as [Hov | _]; [lia |].
    eexists; eexists; reflexivity.
Qed.

Lemma py_truediv_returns (a b : Z) :
  Z.abs a < 2 ^ 1023 -> b <> 0 ->
  exists q, NumPy.py_truediv a b = Ok q.
Proof.
  intros Ha Hb. unfold NumPy.py_truediv, NumPy.float_div.
  destruct (Z.eqb_spec b 0) as [? | _]; [contradiction |].
  destruct (Z.eqb_spec a 0) as [_ | Hne]; [eexists; reflexivity |].
  destruct (round_quotient_no_overflow (Z.abs a) (Z.abs b)
              ltac:(lia) ltac:(lia)) as (m & e & ->).
  eexists; reflexivity.
Qed.

(** Below the threshold of Python's [OverflowError] and with requested
    dimensions that fit [int64], [actual_size] returns; both dimensions
    are at least 1, and their run-time types are fit for the integer
    operations of [position]. *)
Lemma np_actual_size_typed_returns (g : GridCanvas) (nlayers : Z) :
  stride g <> 0 ->
  Z.abs nlayers < 2 ^ 1023 ->
  - 2 ^ 63 <= fst (size g) < 2 ^ 63 ->
  - 2 ^ 63 <= snd (size g) < 2 ^ 63 ->
  exists n_row n_column,
    NumPy.actual_size_typed nonfinite_cast g nlayers = Ok (n_row, n_column) /\
    1 <= NumPy.value n_row /\ 1 <= NumPy.value n_column /\
    NumPy.as_int64 n_row = Ok (NumPy.value n_row) /\
    NumPy.as_int64 n_column = Ok (NumPy.value n_column).
Proof.
  intros Hs Hn Hr Hc. unfold NumPy.actual_size_typed.
  destruct (enabled g).
  2:{ exists (NumPy.PyInt 1), (NumPy.PyInt 1).
      repeat split; cbn; lia. }
  destruct (size g) as [r c]. cbn [fst snd] in Hr, Hc.
  destruct (py_truediv_returns nlayers (Z.abs (stride g)) Hn ltac:(lia))
    as (q & ->).
  cbn [bind].
  assert (Hclamp : forall x y,
             NumPy.as_int64 x = Ok (NumPy.value x) ->
             NumPy.as_int64 y = Ok (NumPy.value y) ->
             exists n_row n_column,
               Ok (NumPy.max_1 x, NumPy.max_1 y) = Ok (n_row, n_column) /\
               1 <= NumPy.value n_row /\ 1 <= NumPy.value n_column /\
               NumPy.as_int64 n_row = Ok (NumPy.value n_row) /\
               NumPy.as_int64 n_column = Ok (NumPy.value n_column)).
  { intros x y Hx Hy.
    destruct (max_1_spec x Hx) as [Hvx Hax].
    destruct (max_1_spec y Hy) as [Hvy Hay].
    exists (NumPy.max_1 x), (NumPy.max_1 y).
    repeat split; try assumption; lia. }
  destruct ((r =? -1) && (c =? -1)).
  - cbn [bind]. apply Hclamp; reflexivity.
  - destruct (r =? -1).
    + rewrite as_int64_PyInt by exact Hc. cbn [bind].
      apply Hclamp; [reflexivity | apply as_int64_PyInt; exact Hc].
    + destruct (c =? -1).
      * rewrite as_int64_PyInt by exact Hr. cbn [bind].
        apply Hclamp; [apply as_int64_PyInt; exact Hr | reflexivity].
      * cbn [bind].
        apply Hclamp; apply as_int64_PyInt; assumption.
Qed.

(** With a grid of fewer than [2^63] cells and a slot that fits
    [int64], no integer operation of [position] wraps or raises, and the
    result is the formula of the specification. *)
Lemma np_position_unfold (g : GridCanvas) (index nlayers : Z)
  (n_row n_column : NumPy.Int) :
  enabled g = true ->
  stride g <> 0 ->
  NumPy.actual_size_typed nonfinite_cast g nlayers = Ok (n_row, n_column) ->
  1 <= NumPy.value n_row -> 1 <= NumPy.value n_column ->
  NumPy.as_int64 n_row = Ok (NumPy.value n_row) ->
  NumPy.as_int64 n_column = Ok (NumPy.value n_column) ->
  NumPy.value n_row * NumPy.value n_column < 2 ^ 63 ->
  - 2 ^ 63 <= adjusted g index nlayers / Z.abs (stride g) < 2 ^ 63 ->
  NumPy.position nonfinite_cast g index nlayers =
  Ok (position_spec g (NumPy.value n_row) (NumPy.value n_column)
        index nlayers).
Proof.
  intros He Hs Ha Hr Hc Hrt Hct Hcells Hslot.
  unfold NumPy.position. rewrite He, Ha. cbn [bind].
  rewrite py_floordiv_nonzero by lia. cbn [bind].
  rewrite position_spec_adjusted. unfold adjusted in *.
  set (slot := (if stride g <? 0 then nlayers - index - 1 else index)
               / Z.abs (stride g)) in *.
  set (rows := NumPy.value n_row) in *.
  set (cols := NumPy.value n_column) in *.
  assert (Hm : 0 <= slot mod (rows * cols) < rows * cols)
    by (apply Z.mod_pos_bound; nia).
  assert (Hq : 0 <= slot mod (rows * cols) / cols < rows).
  { split; [apply Z.div_pos; lia | apply Z.div_lt_upper_bound; nia]. }
  assert (Hrem : 0 <= (slot mod (rows * cols)) mod cols < cols)
    by (apply Z.mod_pos_bound; lia).
  assert (Hne : rows * cols <> 0) by nia.
  assert (Hnec : cols <> 0) by lia.
  assert (Hw1 : NumPy.wrap_int64 (rows * cols) = rows * cols)
    by (apply wrap_int64_fits; nia).
  assert (Hw2 : NumPy.wrap_int64 (slot mod (rows * cols) / cols) =
                slot mod (rows * cols) / cols)
    by (apply wrap_int64_fits; nia).
  assert (Hz1 : (rows * cols =? 0) = false) by (apply Z.eqb_neq; exact Hne).
  assert (Hz2 : (cols =? 0) = false) by (apply Z.eqb_neq; exact Hnec).
  assert (Hfs : NumPy.as_int64 (NumPy.PyInt slot) = Ok slot)
    by (apply as_int64_PyInt; exact Hslot).
  assert (Hfm : NumPy.as_int64 (NumPy.PyInt (slot mod (rows * cols))) =
                Ok (slot mod (rows * cols)))
    by (apply as_int64_PyInt; nia).
  assert (H64 : forall z, NumPy.as_int64 (NumPy.Int64 z) = Ok z)
    by reflexivity.
  destruct n_row as [r | r], n_column as [c | c];
    cbn [NumPy.value] in *; subst rows cols;
    repeat first
      [ rewrite Hfs | rewrite Hfm | rewrite H64
      | rewrite Hrt | rewrite Hct
      | rewrite Hw1 | rewrite Hw2 | rewrite Hz1 | rewrite Hz2
      | rewrite py_mod_nonzero by assumption
      | rewrite py_floordiv_nonzero by assumption
      | progress cbn [NumPy.int_mul NumPy.int_mod NumPy.int_floordiv
                      bind NumPy.value] ];
    reflexivity.
Qed.

Lemma max_1_value (x : NumPy.Int) :
  NumPy.value (NumPy.max_1 x) = Z.max 1 (NumPy.value x).
Proof.
  unfold NumPy.max_1.
  destruct (Z.ltb_spec 1 (NumPy.value x)); [lia | cbn; lia].
Qed.

(** After the clamp, the ceiling of a NumPy quotient is the one of the
    first level, for every [int64] divisor. *)
Lemma np_truediv_ceil_clamped (a b : Z) :
  0 <= a < 2 ^ 53 -> - 2 ^ 63 <= b < 2 ^ 63 ->
  Z.max 1 (NumPy.ceil_astype_int nonfinite_cast (NumPy.np_truediv a b)) =
  Z.max 1 (np_ceil_truediv a b).
Proof.
  intros Ha Hb. unfold np_ceil_truediv.
  destruct (Z.eqb_spec b 0) as [-> | Hne].
  - rewrite np_truediv_ceil_zero. reflexivity.
  - destruct (Z_lt_le_dec b 0) as [Hneg | Hpos].
    + pose proof (np_truediv_ceil_negative a b Ha ltac:(lia)).
      pose proof (ceil_quot_neg_divisor a b ltac:(lia) Hneg). lia.
    + rewrite np_truediv_ceil_positive by lia. reflexivity.
Qed.

(** Where the two levels agree: up to [2^52] layers, with a stride and
    requested dimensions of 64 bits, NumPy's [actual_size] returns what
    the exact arithmetic gives. *)
Lemma np_actual_size_exact (g : GridCanvas) (nlayers : Z) :
  stride g <> 0 ->
  Z.abs (stride g) < 2 ^ 1000 ->
  0 <= nlayers <= 2 ^ 52 ->
  - 2 ^ 63 <= fst (size g) < 2 ^ 63 ->
  - 2 ^ 63 <= snd (size g) < 2 ^ 63 ->
  NumPy.actual_size nonfinite_cast g nlayers = actual_size g nlayers.
Proof.
  intros Hs Hs' Hn Hr Hc.
  unfold NumPy.actual_size, NumPy.actual_size_typed, actual_size.
  destruct (enabled g); [| reflexivity].
  destruct (size g) as [r c]. cbn [fst snd] in Hr, Hc.
  assert (H5253 : 2 ^ 52 < 2 ^ 53) by (vm_compute; reflexivity).
  unfold NumPy.py_truediv.
  destruct (Z.eqb_spec (Z.abs (stride g)) 0) as [? | _]; [lia |].
  destruct (float_div_ceil_exact nlayers (Z.abs (stride g))
              ltac:(lia) ltac:(lia)) as (q & -> & Hq).
  rewrite py_ceil_truediv_nonzero by lia. cbn [bind]. rewrite Hq.
  pose proof (ceil_quot_nonneg nlayers (Z.abs (stride g))
                ltac:(lia) ltac:(lia)) as HN0.
  assert (HN : ceil_quot nlayers (Z.abs (stride g)) <= 2 ^ 52).
  { pose proof (ceil_quot_bounds nlayers (Z.abs (stride g)) ltac:(lia)).
    nia. }
  set (N := ceil_quot nlayers (Z.abs (stride g))) in *.
  destruct ((r =? -1) && (c =? -1)).
  - cbn [bind]. rewrite !max_1_value. cbn [NumPy.value].
    rewrite np_sqrt_ceil_exact by lia.
    unfold np_ceil_sqrt.
    destruct (Z.ltb_spec N 0) as [? | _]; [lia |].
    assert (HC : - 2 ^ 63 <= ceil_root N < 2 ^ 63).
    { destruct (Z.eq_dec N 0) as [-> | HN1]; [vm_compute; split; congruence |].
      destruct (ceil_root_bounds N ltac:(lia)) as (Hc1 & Hcl & Hcu).
      change (2 ^ 52) with 4503599627370496 in HN.
      change (2 ^ 63) with 9223372036854775808. nia. }
    rewrite np_truediv_ceil_clamped by lia. reflexivity.
  - destruct (r =? -1).
    + rewrite as_int64_PyInt by exact Hc. cbn [bind].
      rewrite !max_1_value. cbn [NumPy.value].
      rewrite np_truediv_ceil_clamped by lia. reflexivity.
    + destruct (c =? -1).
      * rewrite as_int64_PyInt by exact Hr. cbn [bind].
        rewrite !max_1_value. cbn [NumPy.value].
        rewrite np_truediv_ceil_clamped by lia. reflexivity.
      * cbn [bind]. rewrite !max_1_value. reflexivity.
Qed.

(** The typed result behind a returned size. *)
Lemma np_actual_size_typed_of (g : GridCanvas) (nlayers rows cols : Z) :
  stride g <> 0 ->
  Z.abs nlayers < 2 ^ 1023 ->
  - 2 ^ 63 <= fst (size g) < 2 ^ 63 ->
  - 2 ^ 63 <= snd (size g) < 2 ^ 63 ->
  NumPy.actual_size nonfinite_cast g nlayers = Ok (rows, cols) ->
  exists n_row n_column,
    NumPy.actual_size_typed nonfinite_cast g nlayers = Ok (n_row, n_column) /\
    NumPy.value n_row = rows /\ NumPy.value n_column = cols /\
    1 <= rows /\ 1 <= cols /\
    NumPy.as_int64 n_row = Ok rows /\
    NumPy.as_int64 n_column = Ok cols.
Proof.
  intros Hs Hn Hr Hc Ha.
  destruct (np_actual_size_typed_returns g nlayers Hs Hn Hr Hc)
    as (tr & tc & Ht & Hr1 & Hc1 & Hrt & Hct).
  unfold NumPy.actual_size in Ha. rewrite Ht in Ha. cbn [bind] in Ha.
  assert (Hrv : NumPy.value tr = rows) by congruence.
  assert (Hcv : NumPy.value tc = cols) by congruence.
  exists tr, tc. rewrite Hrv, Hcv in *. repeat split; assumption.
Qed.

Lemma np_actual_size_returns (g : GridCanvas) (nlayers : Z) :
  stride g <> 0 ->
  Z.abs nlayers < 2 ^ 1023 ->
  - 2 ^ 63 <= fst (size g) < 2 ^ 63 ->
  - 2 ^ 63 <= snd (size g) < 2 ^ 63 ->
  exists rows cols,
    NumPy.actual_size nonfinite_cast g nlayers = Ok (rows, cols) /\
    1 <= rows /\ 1 <= cols.
Proof.
  intros Hs Hn Hr Hc.
  destruct (np_actual_size_typed_returns g nlayers Hs Hn Hr Hc)
    as (tr & tc & Ht & Hr1 & Hc1 & _).
  exists (NumPy.value tr), (NumPy.value tc).
  unfold NumPy.actual_size. rewrite Ht. repeat split; assumption.
Qed.

(** The position in a returned grid of fewer than [2^63] cells. *)
Lemma np_position_of (g : GridCanvas) (index nlayers rows cols : Z) :
  enabled g = true ->
  stride g <> 0 ->
  Z.abs nlayers < 2 ^ 1023 ->
  - 2 ^ 63 <= fst (size g) < 2 ^ 63 ->
  - 2 ^ 63 <= snd (size g) < 2 ^ 63 ->
  NumPy.actual_size nonfinite_cast g nlayers = Ok (rows, cols) ->
  rows * cols < 2 ^ 63 ->
  - 2 ^ 63 <= adjusted g index nlayers / Z.abs (stride g) < 2 ^ 63 ->
  1 <= rows /\ 1 <= cols /\
  NumPy.position nonfinite_cast g index nlayers =
  Ok (position_spec g rows cols index nlayers).
Proof.
  intros He Hs Hn Hr Hc Ha Hcells Hslot.
  destruct (np_actual_size_typed_of g nlayers rows cols Hs Hn Hr Hc Ha)
    as (tr & tc & Ht & <- & <- & Hr1 & Hc1 & Hrt & Hct).
  split; [exact Hr1 |]. split; [exact Hc1 |].
  apply np_position_unfold; assumption.
Qed.

(** A quotient is no larger in magnitude than its dividend. *)
Lemma slot_fits (a s : Z) :
  s <> 0 -> - 2 ^ 63 <= a < 2 ^ 63 -> - 2 ^ 63 <= a / Z.abs s < 2 ^ 63.
Proof.
  intros Hs Ha.
  assert (Hs0 : 0 < Z.abs s) by lia.
  pose proof (Z.div_mod a (Z.abs s) ltac:(lia)) as Hdm.
  pose proof (Z.mod_pos_bound a (Z.abs s) Hs0) as Hm.
  split.
  - apply Z.div_le_lower_bound; [lia |]. nia.
  - apply Z.div_lt_upper_bound; [lia |]. nia.
Qed.

Lemma position_spec_periodic (g : GridCanvas) (rows cols index nlayers : Z) :
  stride g <> 0 -> 1 <= rows -> 1 <= cols ->
  position_spec g rows cols (index + Z.abs (stride g) * rows * cols) nlayers
  = position_spec g rows cols index nlayers.
Proof.
  intros Hs Hr Hc. rewrite !position_spec_adjusted.
  set (s := Z.abs (stride g)) in *. set (m := rows * cols) in *.
  assert (Hs0 : 0 < s) by (subst s; lia).
  assert (Hm : 1 <= m) by (subst m; nia).
  assert (Hslot :
    exists t, adjusted g (index + s * rows * cols) nlayers / s =
              adjusted g index nlayers / s + t * m).
  { unfold adjusted. destruct (stride g <? 0).
    - exists (- 1).
      replace (nlayers - (index + s * rows * cols) - 1)
        with (nlayers - index - 1 + (- m) * s) by (subst m; lia).
      rewrite Z.div_add by lia. lia.
    - exists 1.
      replace (index + s * rows * cols) with (index + m * s)
        by (subst m; lia).
      rewrite Z.div_add by lia. lia. }
  destruct Hslot as [t Ht]. rewrite Ht.
  rewrite Z.mod_add by lia. reflexivity.
Qed.

(** The auto-sized grids of the first level: room for every group, and
    fewer than [2^63] cells up to [2^52] layers. *)
Lemma actual_size_auto_cells (g : GridCanvas) (nlayers rows cols : Z) :
  enabled g = true ->
  stride g <> 0 ->
  1 <= nlayers <= 2 ^ 52 ->
  auto_sized g = true ->
  fst (size g) < 2 ^ 63 -> snd (size g) < 2 ^ 63 ->
  actual_size g nlayers = Ok (rows, cols) ->
  ceil_quot nlayers (Z.abs (stride g)) <= rows * cols < 2 ^ 63.
Proof.
  intros He Hs Hn Hauto Hr63 Hc63 Ha.
  unfold actual_size, auto_sized in *.
  rewrite He in Ha. destruct (size g) as [r c]. cbn [fst snd] in *.
  rewrite py_ceil_truediv_nonzero in Ha by lia. cbn [bind] in Ha.
  assert (HN1 : 1 <= ceil_quot nlayers (Z.abs (stride g)))
    by (apply ceil_quot_pos; lia).
  assert (HN : ceil_quot nlayers (Z.abs (stride g)) <= 2 ^ 52).
  { pose proof (ceil_quot_bounds nlayers (Z.abs (stride g)) ltac:(lia)).
    nia. }
  set (n := ceil_quot nlayers (Z.abs (stride g))) in *.
  change (2 ^ 52) with 4503599627370496 in *.
  change (2 ^ 63) with 9223372036854775808 in *.
  assert (Hone : forall d, 1 <= d < 9223372036854775808 ->
             n <= Z.max 1 (ceil_quot n d) * Z.max 1 d
               < 9223372036854775808).
  { intros d Hd.
    pose proof (ceil_quot_bounds n d ltac:(lia)) as [Hl Hu].
    pose proof (ceil_quot_pos n d ltac:(lia) HN1) as Hq1.
    rewrite !Z.max_r by lia. split; [lia |].
    destruct (Z.eq_dec (ceil_quot n d) 1) as [-> | Hq2]; [lia |].
    nia. }
  destruct (Z.eqb_spec r (-1)) as [Hr | Hr];
    destruct (Z.eqb_spec c (-1)) as [Hc | Hc];
    cbn [andb orb] in *.
  - unfold np_ceil_sqrt in Ha.
    destruct (Z.ltb_spec n 0) as [? | _]; [lia |].
    destruct (ceil_root_bounds n HN1) as (Hc1 & Hcl & Hcu).
    rewrite np_ceil_truediv_nonzero in Ha by lia.
    injection Ha as <- <-.
    rewrite (Z.mul_comm _ (Z.max 1 (ceil_root n))).
    rewrite Z.mul_comm. apply Hone. nia.
  - destruct (Z.leb_spec 1 c) as [Hc1 | Hc1]; [| discriminate Hauto].
    rewrite np_ceil_truediv_nonzero in Ha by lia.
    injection Ha as <- <-. apply Hone. lia.
  - destruct (Z.leb_spec 1 r) as [Hr1 | Hr1]; [| discriminate Hauto].
    rewrite np_ceil_truediv_nonzero in Ha by lia.
    injection Ha as <- <-. rewrite Z.mul_comm. apply Hone. lia.
  - discriminate Hauto.
Qed.

(** The auto/auto grid of the first level is nearly square and has no
    empty row. *)
Lemma actual_size_auto_square (g : GridCanvas) (nlayers : Z) :
  enabled g = true ->
  stride g <> 0 ->
  1 <= nlayers ->
  size g = (-1, -1) ->
  exists rows cols,
    actual_size g nlayers = Ok (rows, cols) /\
    cols - 1 <= rows <= cols /\
    (rows - 1) * cols < ceil_quot nlayers (Z.abs (stride g)).
Proof.
  intros He Hs Hn Hsize. unfold actual_size. rewrite He, Hsize.
  rewrite py_ceil_truediv_nonzero by lia. cbn [bind Z.eqb andb].
  change (-1 =? -1) with true. cbn [andb].
  set (n := ceil_quot nlayers (Z.abs (stride g))).
  assert (Hn1 : 1 <= n) by (apply ceil_quot_pos; lia).
  unfold np_ceil_sqrt.
  destruct (Z.ltb_spec n 0) as [Hneg | _]; [lia |].
  destruct (ceil_root_bounds n Hn1) as (Hc1 & Hcl & Hcu).
  rewrite np_ceil_truediv_nonzero by lia.
  pose proof (ceil_quot_bounds n (ceil_root n) ltac:(lia)) as [Hql Hqu].
  set (c := ceil_root n) in *. set (r := ceil_quot n c) in *.
  assert (Hr1 : 1 <= r) by nia.
  assert (Hrc : r <= c) by nia.
  assert (Hcr : c - 1 <= r) by nia.
  eexists; eexists. split; [reflexivity |].
  rewrite !Z.max_r by lia. lia.
Qed.

(** ** The claims on sizing and placement, as NumPy runs them *)

(** C1, amended.  For an enabled configuration with a nonzero stride and
    requested dimensions that fit 64 bits, a number of layers from 1 to
    below [2^63] and an index below it, [actual_size] returns a size
    [(rows, cols)], and when [rows * cols] is below [2^63], [position]
    returns exactly the formula of the specification: the index remapped
    to [nlayers - index - 1] under a negative stride, divided by
    [abs(stride)], reduced modulo [rows * cols], and split into
    [(slot // cols, slot % cols)]. *)
Theorem position_formula_bounded (g : GridCanvas) (index nlayers : Z) :
  enabled g = true ->
  stride g <> 0 ->
  1 <= nlayers < 2 ^ 63 ->
  0 <= index < nlayers ->
  - 2 ^ 63 <= fst (size g) < 2 ^ 63 ->
  - 2 ^ 63 <= snd (size g) < 2 ^ 63 ->
  exists rows cols,
    NumPy.actual_size nonfinite_cast g nlayers = Ok (rows, cols) /\
    (rows * cols < 2 ^ 63 ->
     NumPy.position nonfinite_cast g index nlayers =
     Ok (let remapped :=
           if stride g <? 0 then nlayers - index - 1 else index in
         let slot := (remapped / Z.abs (stride g)) mod (rows * cols) in
         (slot / cols, slot mod cols))).
Proof.
  intros He Hs Hn Hi Hr Hc.
  assert (H1023 : 2 ^ 63 < 2 ^ 1023) by (vm_compute; reflexivity).
  destruct (np_actual_size_returns g nlayers Hs ltac:(lia) Hr Hc)
    as (rows & cols & Ha & _ & _).
  exists rows, cols. split; [exact Ha |]. intros Hcells.
  pose proof (adjusted_in_range g index nlayers Hi) as Hadj.
  destruct (np_position_of g index nlayers rows cols He Hs ltac:(lia)
              Hr Hc Ha Hcells ltac:(apply slot_fits; lia))
    as (_ & _ & ->).
  reflexivity.
Qed.

(** C2, amended.  For an enabled configuration with a nonzero stride below
    [2^1000] in magnitude, requested dimensions that fit 64 bits, and from
    1 to [2^52] layers, [actual_size] returns the size of the
    specification: with [n_cells] the ceiling of [nlayers / abs(stride)],
    the columns are the ceiling of the square root of [n_cells] and the
    rows the ceiling of [n_cells / cols] when both requested dimensions
    are auto, the auto one is the ceiling of [n_cells] over the requested
    other one when one is auto, both are the requested ones when none is,
    and both are clamped to at least 1. *)
Theorem actual_size_formula_bounded (g : GridCanvas) (nlayers : Z) :
  enabled g = true ->
  stride g <> 0 ->
  Z.abs (stride g) < 2 ^ 1000 ->
  1 <= nlayers <= 2 ^ 52 ->
  - 2 ^ 63 <= fst (size g) < 2 ^ 63 ->
  - 2 ^ 63 <= snd (size g) < 2 ^ 63 ->
  exists rows cols,
    NumPy.actual_size nonfinite_cast g nlayers = Ok (rows, cols) /\
    effective_size_rel g nlayers rows cols.
Proof.
  intros He Hs Hs' Hn Hr Hc.
  rewrite np_actual_size_exact by lia.
  unfold actual_size, effective_size_rel. rewrite He.
  destruct (size g) as [r c]. cbn [fst snd] in *.
  rewrite py_ceil_truediv_nonzero by lia. cbn [bind].
  pose proof (ceil_quot_bounds nlayers (Z.abs (stride g)) ltac:(lia)) as HN.
  pose proof (ceil_quot_pos nlayers (Z.abs (stride g)) ltac:(lia) ltac:(lia))
    as HN1.
  set (n := ceil_quot nlayers (Z.abs (stride g))) in *.
  assert (HNq : is_ceiling_of_quotient nlayers (Z.abs (stride g)) n)
    by (split; intros; [exact HN | lia]).
  assert (Hq : forall d, is_ceiling_of_quotient n d (np_ceil_truediv n d)).
  { intros d. split; intros Hd.
    - rewrite np_ceil_truediv_nonzero by lia. apply ceil_quot_bounds. lia.
    - rewrite np_ceil_truediv_nonzero by lia.
      apply ceil_quot_bounds_neg. lia. }
  assert (Hroot : is_ceiling_of_root n (np_ceil_sqrt n)).
  { unfold np_ceil_sqrt, is_ceiling_of_root.
    destruct (Z.ltb_spec n 0) as [? | _]; [lia |].
    destruct (ceil_root_bounds n HN1); lia. }
  destruct (Z.eqb_spec r (-1)) as [Hr1 | Hr1];
    destruct (Z.eqb_spec c (-1)) as [Hc1 | Hc1]; cbn [andb].
  - eexists; eexists. split; [reflexivity |].
    exists n. split; [exact HNq |]. cbv zeta.
    exists (np_ceil_truediv n (np_ceil_sqrt n)), (np_ceil_sqrt n).
    split; [reflexivity |]. split; [reflexivity |].
    split; [| split; [| split]]; intros [? ?]; try congruence.
    split; [exact Hroot | apply Hq].
  - eexists; eexists. split; [reflexivity |].
    exists n. split; [exact HNq |]. cbv zeta.
    exists (np_ceil_truediv n c), c.
    split; [reflexivity |]. split; [reflexivity |].
    split; [| split; [| split]]; intros [? ?]; try congruence.
    split; [apply Hq | reflexivity].
  - eexists; eexists. split; [reflexivity |].
    exists n. split; [exact HNq |]. cbv zeta.
    exists r, (np_ceil_truediv n r).
    split; [reflexivity |]. split; [reflexivity |].
    split; [| split; [| split]]; intros [? ?]; try congruence.
    split; [apply Hq | reflexivity].
  - eexists; eexists. split; [reflexivity |].
    exists n. split; [exact HNq |]. cbv zeta.
    exists r, c.
    split; [reflexivity |]. split; [reflexivity |].
    split; [| split; [| split]]; intros [? ?]; try congruence.
    split; reflexivity.
Qed.

(** C3, amended.  Under the same conditions (enabled, nonzero stride,
    requested dimensions that fit 64 bits, from 1 to below [2^63] layers,
    an index below the number of layers), when the grid [(rows, cols)]
    that [actual_size] returns has fewer than [2^63] cells, the cell that
    [position] returns lies inside it. *)
Theorem position_in_bounds_bounded (g : GridCanvas) (index nlayers : Z) :
  enabled g = true ->
  stride g <> 0 ->
  1 <= nlayers < 2 ^ 63 ->
  0 <= index < nlayers ->
  - 2 ^ 63 <= fst (size g) < 2 ^ 63 ->
  - 2 ^ 63 <= snd (size g) < 2 ^ 63 ->
  exists rows cols,
    NumPy.actual_size nonfinite_cast g nlayers = Ok (rows, cols) /\
    (rows * cols < 2 ^ 63 ->
     exists row col,
       NumPy.position nonfinite_cast g index nlayers = Ok (row, col) /\
       0 <= row < rows /\ 0 <= col < cols).
Proof.
  intros He Hs Hn Hi Hr Hc.
  assert (H1023 : 2 ^ 63 < 2 ^ 1023) by (vm_compute; reflexivity).
  destruct (np_actual_size_returns g nlayers Hs ltac:(lia) Hr Hc)
    as (rows & cols & Ha & _ & _).
  exists rows, cols. split; [exact Ha |]. intros Hcells.
  pose proof (adjusted_in_range g index nlayers Hi) as Hadj.
  destruct (np_position_of g index nlayers rows cols He Hs ltac:(lia)
              Hr Hc Ha Hcells ltac:(apply slot_fits; lia))
    as (Hr1 & Hc1 & Hp).
  exists (fst (position_spec g rows cols index nlayers)),
    (snd (position_spec g rows cols index nlayers)).
  rewrite <- surjective_pairing. split; [exact Hp |].
  apply position_spec_bounds; assumption.
Qed.

(** C7, amended.  For every configuration with a nonzero stride and
    requested dimensions that fit 64 bits, zero included, and every
    number of layers from 0 to below [2^1023], [actual_size] returns,
    without raising, a pair of integers that are both at least 1. *)
Theorem actual_size_positive_bounded (g : GridCanvas) (nlayers : Z) :
  stride g <> 0 ->
  0 <= nlayers < 2 ^ 1023 ->
  - 2 ^ 63 <= fst (size g) < 2 ^ 63 ->
  - 2 ^ 63 <= snd (size g) < 2 ^ 63 ->
  exists rows cols,
    NumPy.actual_size nonfinite_cast g nlayers = Ok (rows, cols) /\
    1 <= rows /\ 1 <= cols.
Proof.
  intros Hs Hn Hr Hc.
  apply np_actual_size_returns; try assumption. lia.
Qed.

(** ** The other claims, at this level *)

(** Reversal: the two calls run the same computation, so they return the
    same cell or raise the same error, whatever the magnitudes. *)
Lemma np_position_reversal (g : GridCanvas) (s i nlayers : Z) :
  0 < s ->
  NumPy.position nonfinite_cast (with_stride (- s) g) i nlayers =
  NumPy.position nonfinite_cast (with_stride s g) (nlayers - 1 - i) nlayers.
Proof.
  intros Hs.
  unfold NumPy.position, NumPy.actual_size_typed, with_stride.
  cbn [enabled stride size]. rewrite Z.abs_opp.
  destruct (Z.ltb_spec (- s) 0); [| lia].
  destruct (Z.ltb_spec s 0); [lia |].
  replace (nlayers - i - 1) with (nlayers - 1 - i) by lia. reflexivity.
Qed.

(** Wraparound, for fewer than [2^63] layers: a grid with fewer cells
    than groups has fewer than [2^63] cells, so nothing wraps in
    [int64]. *)
Lemma np_position_wraparound (g : GridCanvas) (nlayers rows cols : Z) :
  enabled g = true ->
  stride g <> 0 ->
  1 <= nlayers < 2 ^ 63 ->
  - 2 ^ 63 <= fst (size g) < 2 ^ 63 ->
  - 2 ^ 63 <= snd (size g) < 2 ^ 63 ->
  NumPy.actual_size nonfinite_cast g nlayers = Ok (rows, cols) ->
  rows * cols < ceil_quot nlayers (Z.abs (stride g)) ->
  (exists i j cell,
      0 <= i < nlayers /\ 0 <= j < nlayers /\ i <> j /\
      NumPy.position nonfinite_cast g i nlayers = Ok cell /\
      NumPy.position nonfinite_cast g j nlayers = Ok cell) /\
  (forall k, 0 <= k < nlayers ->
     exists row col,
       NumPy.position nonfinite_cast g k nlayers = Ok (row, col) /\
       0 <= row < rows /\ 0 <= col < cols).
Proof.
  intros He Hs Hn Hr Hc Ha Hlt.
  assert (H1023 : 2 ^ 63 < 2 ^ 1023) by (vm_compute; reflexivity).
  destruct (np_actual_size_typed_of g nlayers rows cols Hs ltac:(lia)
              Hr Hc Ha) as (_ & _ & _ & _ & _ & Hr1 & Hc1 & _).
  set (m := rows * cols) in *. set (s := Z.abs (stride g)) in *.
  assert (Hs0 : 0 < s) by (subst s; lia).
  assert (Hm : 1 <= m) by (subst m; nia).
  assert (Hms : m * s < nlayers).
  { pose proof (ceil_quot_bounds nlayers s Hs0) as [Hl _]. nia. }
  assert (Hcells : m < 2 ^ 63) by nia.
  assert (Hpos : forall k, 0 <= k < nlayers ->
             NumPy.position nonfinite_cast g k nlayers =
             Ok (position_spec g rows cols k nlayers)).
  { intros k Hk. pose proof (adjusted_in_range g k nlayers Hk).
    apply (np_position_of g k nlayers rows cols He Hs ltac:(lia)
             Hr Hc Ha Hcells ltac:(apply slot_fits; lia)). }
  assert (Hcell : forall a, a = 0 \/ a = m * s ->
             ((a / s) mod m / cols, (a / s) mod m mod cols) = (0, 0)).
  { intros a [-> | ->].
    - reflexivity.
    - rewrite Z.div_mul by lia. rewrite Z_mod_same_full. reflexivity. }
  split.
  - destruct (Z.ltb_spec (stride g) 0) as [Hneg | Hnonneg].
    + exists (nlayers - 1), (nlayers - 1 - m * s), (0, 0).
      repeat split; try nia;
        rewrite Hpos by nia; rewrite position_spec_adjusted;
        unfold adjusted; fold s; fold m;
        (destruct (Z.ltb_spec (stride g) 0); [| lia]);
        rewrite Hcell; try reflexivity; lia.
    + exists 0, (m * s), (0, 0).
      repeat split; try nia;
        rewrite Hpos by nia; rewrite position_spec_adjusted;
        unfold adjusted; fold s; fold m;
        (destruct (Z.ltb_spec (stride g) 0); [lia |]);
        rewrite Hcell; try reflexivity; lia.
  - intros k Hk.
    pose proof (position_spec_bounds g rows cols k nlayers Hr1 Hc1) as Hb.
    exists (fst (position_spec g rows cols k nlayers)),
      (snd (position_spec g rows cols k nlayers)).
    rewrite <- surjective_pairing. split; [| exact Hb].
    apply Hpos. exact Hk.
Qed.

(** A disabled grid: one cell, before anything is computed. *)
Lemma np_disabled_single_cell (g : GridCanvas) (index nlayers : Z) :
  enabled g = false ->
  NumPy.actual_size nonfinite_cast g nlayers = Ok (1, 1) /\
  NumPy.position nonfinite_cast g index nlayers = Ok (0, 0).
Proof.
  intros He.
  unfold NumPy.position, NumPy.actual_size, NumPy.actual_size_typed.
  rewrite He. split; reflexivity.
Qed.

(** A zero stride: Python tests the divisor before anything else. *)
Lemma np_zero_stride_raises (g : GridCanvas) (index nlayers : Z) :
  enabled g = true ->
  stride g = 0 ->
  NumPy.actual_size nonfinite_cast g nlayers = Raise ZeroDivisionError /\
  NumPy.position nonfinite_cast g index nlayers = Raise ZeroDivisionError.
Proof.
  intros He Hs.
  unfold NumPy.position, NumPy.actual_size, NumPy.actual_size_typed.
  rewrite He, Hs. destruct (size g) as [r c]. split; reflexivity.
Qed.

(** ** More on placement, as NumPy runs it *)

(** X1.  [position] checks neither the index nor the number of layers:
    for an enabled configuration with a nonzero stride and requested
    dimensions that fit 64 bits, and for every index and number of layers
    below [2^62] in magnitude, negative ones and indices past the end
    included, [actual_size] returns a grid, and when the grid has fewer
    than [2^63] cells [position] returns a cell inside it. *)
Theorem position_unchecked_index (g : GridCanvas) (index nlayers : Z) :
  enabled g = true ->
  stride g <> 0 ->
  Z.abs index < 2 ^ 62 ->
  Z.abs nlayers < 2 ^ 62 ->
  - 2 ^ 63 <= fst (size g) < 2 ^ 63 ->
  - 2 ^ 63 <= snd (size g) < 2 ^ 63 ->
  exists rows cols,
    NumPy.actual_size nonfinite_cast g nlayers = Ok (rows, cols) /\
    (rows * cols < 2 ^ 63 ->
     exists row col,
       NumPy.position nonfinite_cast g index nlayers = Ok (row, col) /\
       0 <= row < rows /\ 0 <= col < cols).
Proof.
  intros He Hs Hi Hn Hr Hc.
  assert (H1023 : 2 ^ 62 < 2 ^ 1023) by (vm_compute; reflexivity).
  assert (H63 : 2 ^ 63 = 2 * 2 ^ 62) by reflexivity.
  destruct (np_actual_size_returns g nlayers Hs ltac:(lia) Hr Hc)
    as (rows & cols & Ha & _ & _).
  exists rows, cols. split; [exact Ha |]. intros Hcells.
  assert (Hadj : - 2 ^ 63 <= adjusted g index nlayers < 2 ^ 63)
    by (unfold adjusted; destruct (stride g <? 0); lia).
  destruct (np_position_of g index nlayers rows cols He Hs ltac:(lia)
              Hr Hc Ha Hcells ltac:(apply slot_fits; assumption))
    as (Hr1 & Hc1 & Hp).
  exists (fst (position_spec g rows cols index nlayers)),
    (snd (position_spec g rows cols index nlayers)).
  rewrite <- surjective_pairing. split; [exact Hp |].
  apply position_spec_bounds; assumption.
Qed.

(** X3.  Placement is periodic: for an enabled configuration with a
    nonzero stride and requested dimensions that fit 64 bits, a grid
    [(rows, cols)] of [actual_size] with fewer than [2^63] cells, and an
    index that stays below [2^62] in magnitude, as does the number of
    layers, moving the index by [abs(stride) * rows * cols] does not
    change the cell. *)
Theorem position_periodic (g : GridCanvas) (index nlayers rows cols : Z) :
  enabled g = true ->
  stride g <> 0 ->
  Z.abs nlayers < 2 ^ 62 ->
  Z.abs index < 2 ^ 62 ->
  Z.abs (index + Z.abs (stride g) * rows * cols) < 2 ^ 62 ->
  - 2 ^ 63 <= fst (size g) < 2 ^ 63 ->
  - 2 ^ 63 <= snd (size g) < 2 ^ 63 ->
  NumPy.actual_size nonfinite_cast g nlayers = Ok (rows, cols) ->
  rows * cols < 2 ^ 63 ->
  exists cell,
    NumPy.position nonfinite_cast g
      (index + Z.abs (stride g) * rows * cols) nlayers = Ok cell /\
    NumPy.position nonfinite_cast g index nlayers = Ok cell.
Proof.
  intros He Hs Hn Hi Hi' Hr Hc Ha Hcells.
  assert (H1023 : 2 ^ 62 < 2 ^ 1023) by (vm_compute; reflexivity).
  assert (H63 : 2 ^ 63 = 2 * 2 ^ 62) by reflexivity.
  assert (Hadj : forall i, Z.abs i < 2 ^ 62 ->
             - 2 ^ 63 <= adjusted g i nlayers / Z.abs (stride g) < 2 ^ 63).
  { intros i Hi0. apply slot_fits; [exact Hs |].
    unfold adjusted. destruct (stride g <? 0); lia. }
  destruct (np_position_of g index nlayers rows cols He Hs ltac:(lia)
              Hr Hc Ha Hcells (Hadj _ Hi)) as (Hr1 & Hc1 & Hp).
  destruct (np_position_of g _ nlayers rows cols He Hs ltac:(lia)
              Hr Hc Ha Hcells (Hadj _ Hi')) as (_ & _ & Hp').
  exists (position_spec g rows cols index nlayers).
  split; [| exact Hp].
  rewrite Hp'. f_equal. apply position_spec_periodic; assumption.
Qed.

(** X4.  An auto-sized grid has room for every group: for an enabled
    configuration with a nonzero stride below [2^1000] in magnitude, from
    1 to [2^52] layers, and a requested size with an auto dimension and
    the other one auto or from 1 to below [2^63], the grid that
    [actual_size] returns has at least [ceil(nlayers / abs(stride))]
    cells. *)
Theorem auto_grid_has_room (g : GridCanvas) (nlayers : Z) :
  enabled g = true ->
  stride g <> 0 ->
  Z.abs (stride g) < 2 ^ 1000 ->
  1 <= nlayers <= 2 ^ 52 ->
  auto_sized g = true ->
  fst (size g) < 2 ^ 63 -> snd (size g) < 2 ^ 63 ->
  exists rows cols,
    NumPy.actual_size nonfinite_cast g nlayers = Ok (rows, cols) /\
    ceil_quot nlayers (Z.abs (stride g)) <= rows * cols.
Proof.
  intros He Hs Hs' Hn Hauto Hr Hc.
  assert (Hfit : - 2 ^ 63 <= fst (size g) /\ - 2 ^ 63 <= snd (size g)).
  { unfold auto_sized in Hauto. destruct (size g) as [r c]. cbn [fst snd].
    assert (H63 : - 2 ^ 63 < -1) by (vm_compute; reflexivity).
    destruct (Z.eqb_spec r (-1)), (Z.eqb_spec c (-1)),
      (Z.leb_spec 1 r), (Z.leb_spec 1 c);
      cbn in Hauto; try discriminate Hauto; lia. }
  rewrite np_actual_size_exact by lia.
  destruct (actual_size_auto_room g nlayers He Hs ltac:(lia) Hauto)
    as (rows & cols & Ha & _ & _ & Hroom).
  exists rows, cols. split; assumption.
Qed.

(** X5.  In a grid with a cell for every group and fewer than [2^63]
    cells, the cell encodes the group: for a valid index, with fewer than
    [2^63] layers, the returned [(row, col)] satisfies
    [row * cols + col = adjusted_index // abs(stride)], the row-major rank
    of the cell. *)
Theorem position_row_major (g : GridCanvas) (index nlayers rows cols : Z) :
  enabled g = true ->
  stride g <> 0 ->
  nlayers < 2 ^ 63 ->
  0 <= index < nlayers ->
  - 2 ^ 63 <= fst (size g) < 2 ^ 63 ->
  - 2 ^ 63 <= snd (size g) < 2 ^ 63 ->
  NumPy.actual_size nonfinite_cast g nlayers = Ok (rows, cols) ->
  ceil_quot nlayers (Z.abs (stride g)) <= rows * cols < 2 ^ 63 ->
  exists row col,
    NumPy.position nonfinite_cast g index nlayers = Ok (row, col) /\
    row * cols + col = adjusted g index nlayers / Z.abs (stride g).
Proof.
  intros He Hs Hn Hi Hr Hc Ha Hroom.
  assert (H1023 : 2 ^ 63 < 2 ^ 1023) by (vm_compute; reflexivity).
  pose proof (adjusted_in_range g index nlayers Hi) as Hadj.
  destruct (np_position_of g index nlayers rows cols He Hs ltac:(lia)
              Hr Hc Ha ltac:(lia) ltac:(apply slot_fits; lia))
    as (Hr1 & Hc1 & Hp).
  exists (fst (position_spec g rows cols index nlayers)),
    (snd (position_spec g rows cols index nlayers)).
  rewrite <- surjective_pairing. split; [exact Hp |].
  apply position_spec_roundtrip; try assumption. lia.
Qed.

(** X6.  With stride 1 or -1 and up to [2^52] layers, an auto-sized grid
    gives every layer a cell of its own: two valid indices with the same
    position are equal. *)
Theorem auto_grid_unit_stride_injective (g : GridCanvas) (i j nlayers : Z) :
  enabled g = true ->
  Z.abs (stride g) = 1 ->
  auto_sized g = true ->
  fst (size g) < 2 ^ 63 -> snd (size g) < 2 ^ 63 ->
  nlayers <= 2 ^ 52 ->
  0 <= i < nlayers ->
  0 <= j < nlayers ->
  NumPy.position nonfinite_cast g i nlayers =
  NumPy.position nonfinite_cast g j nlayers ->
  i = j.
Proof.
  intros He Hs1 Hauto Hr Hc Hn Hi Hj Heq.
  assert (Hs : stride g <> 0) by lia.
  assert (Hfit : - 2 ^ 63 <= fst (size g) /\ - 2 ^ 63 <= snd (size g)).
  { unfold auto_sized in Hauto. destruct (size g) as [r c]. cbn [fst snd].
    assert (H63 : - 2 ^ 63 < -1) by (vm_compute; reflexivity).
    destruct (Z.eqb_spec r (-1)), (Z.eqb_spec c (-1)),
      (Z.leb_spec 1 r), (Z.leb_spec 1 c);
      cbn in Hauto; try discriminate Hauto; lia. }
  assert (Hpow : 1 < 2 ^ 1000 /\ 2 ^ 52 < 2 ^ 63 /\ 2 ^ 63 < 2 ^ 1023)
    by (vm_compute; repeat split; reflexivity).
  destruct (actual_size_auto_room g nlayers He Hs ltac:(lia) Hauto)
    as (rows & cols & Ha & Hr1 & Hc1 & _).
  pose proof (actual_size_auto_cells g nlayers rows cols He Hs ltac:(lia)
                Hauto Hr Hc Ha) as [Hroom Hcells].
  rewrite <- np_actual_size_exact in Ha by lia.
  assert (Hslot : forall k, 0 <= k < nlayers ->
             - 2 ^ 63 <= adjusted g k nlayers / Z.abs (stride g) < 2 ^ 63).
  { intros k Hk. pose proof (adjusted_in_range g k nlayers Hk).
    apply slot_fits; lia. }
  destruct (np_position_of g i nlayers rows cols He Hs ltac:(lia)
              ltac:(lia) ltac:(lia) Ha Hcells (Hslot i Hi))
    as (_ & _ & Hpi).
  destruct (np_position_of g j nlayers rows cols He Hs ltac:(lia)
              ltac:(lia) ltac:(lia) Ha Hcells (Hslot j Hj))
    as (_ & _ & Hpj).
  rewrite Hpi, Hpj in Heq.
  assert (Hcell : position_spec g rows cols i nlayers =
                  position_spec g rows cols j nlayers)
    by (apply (f_equal (fun r => match r with
                                 | Ok cell => cell
                                 | Raise _ => (0, 0)
                                 end)) in Heq; exact Heq).
  pose proof (position_spec_roundtrip g rows cols i nlayers
                Hs Hr1 Hc1 Hi Hroom) as Hri.
  pose proof (position_spec_roundtrip g rows cols j nlayers
                Hs Hr1 Hc1 Hj Hroom) as Hrj.
  rewrite Hcell in Hri. rewrite Hri in Hrj.
  rewrite Hs1, !Z.div_1_r in Hrj.
  unfold adjusted in Hrj. destruct (stride g <? 0); lia.
Qed.

(** X7.  With both dimensions auto the grid is nearly square and has no
    empty row: for an enabled configuration with a nonzero stride below
    [2^1000] in magnitude and from 1 to [2^52] layers,
    [cols - 1 <= rows <= cols], and the rows before the last one do not
    hold all the [ceil(nlayers / abs(stride))] groups. *)
Theorem auto_grid_near_square (g : GridCanvas) (nlayers : Z) :
  enabled g = true ->
  stride g <> 0 ->
  Z.abs (stride g) < 2 ^ 1000 ->
  1 <= nlayers <= 2 ^ 52 ->
  size g = (-1, -1) ->
  exists rows cols,
    NumPy.actual_size nonfinite_cast g nlayers = Ok (rows, cols) /\
    cols - 1 <= rows <= cols /\
    (rows - 1) * cols < ceil_quot nlayers (Z.abs (stride g)).
Proof.
  intros He Hs Hs' Hn Hsize.
  assert (H63 : - 2 ^ 63 <= -1 < 2 ^ 63) by (vm_compute; split; congruence).
  rewrite np_actual_size_exact by (rewrite ?Hsize; cbn [fst snd]; lia).
  apply actual_size_auto_square; try assumption. lia.
Qed.

End Grid.

(** ** Concrete runs *)

(** Closes a closed arithmetic side condition by evaluation. *)
Ltac evaluate :=
  first [ reflexivity
        | discriminate
        | vm_compute; first [ reflexivity | discriminate | lia ] ].



Lemma disabled_single_cell_witness :
  let g := init (0, 7) 0 false in
  enabled g = false /\ 0 <= 0 /\
  actual_size INT64_MIN g 0 = Ok (1, 1) /\
  position INT64_MIN g 3 0 = Ok (0, 0).
Proof.
  intro g.
  assert (He : enabled g = false) by reflexivity.
  assert (Hn : 0 <= 0) by lia.
  repeat (split; [assumption |]).
  exact (disabled_single_cell INT64_MIN g 3 0 He Hn).
Defined.

Lemma zero_stride_division_reachable_witness :
  let g := init (-1, -1) 1 true in
  enabled g = true /\ 1 <= 4 /\
  exists g',
    stride_setter 0 g = Ok g' /\
    stride g' = 0 /\
    enabled g' = true /\
    actual_size INT64_MIN g' 4 = Raise ZeroDivisionError /\
    position INT64_MIN g' 2 4 = Raise ZeroDivisionError.
Proof.
  intro g.
  assert (He : enabled g = true) by reflexivity.
  assert (Hn : 1 <= 4) by lia.
  repeat (split; [assumption |]).
  exact (zero_stride_division_reachable INT64_MIN g 2 4 He Hn).
Defined.

(** The size of five layers on an auto grid is never [(3, 2)], whatever
    the platform: the scenario as the specification writes it fails on its
    first component. *)
Lemma scenario_five_layers_not_3_2 :
  ~ (exists nonfinite_cast,
       actual_size nonfinite_cast (init (-1, -1) 1 true) 5 = Ok (3, 2) /\
       position nonfinite_cast (init (-1, -1) 1 true) 0 5 = Ok (0, 0) /\
       position nonfinite_cast (init (-1, -1) 1 true) 2 5 = Ok (0, 2) /\
       position nonfinite_cast (init (-1, -1) 1 true) 4 5 = Ok (1, 1)).
Proof.
  intros (nf & Hsize & _). vm_compute in Hsize. discriminate Hsize.
Qed.

(** On the default configuration the stride setter called with 0 raises
    nothing and the stored stride changes from 1 to 0. *)
Lemma stride_setter_zero_not_rejected :
  ~ (exists e, stride_setter 0 default = Raise e) /\
  exists g',
    stride_setter 0 default = Ok g' /\ stride g' <> stride default.
Proof.
  split.
  - intros (e & He). discriminate He.
  - eexists. split; [reflexivity | evaluate].
Qed.

(** The other scenarios of the specification, and the degenerate inputs. *)

Example scenario_fixed_rows :
  actual_size INT64_MIN (init (2, -1) 1 true) 5 = Ok (2, 3).
Proof. reflexivity. Qed.

Example scenario_reversed :
  position INT64_MIN (init (-1, -1) (-1) true) 0 3 =
  position INT64_MIN (init (-1, -1) 1 true) 2 3.
Proof. reflexivity. Qed.

Example scenario_wrap :
  let g := init (2, 2) 2 true in
  position INT64_MIN g 8 10 = Ok (0, 0) /\
  position INT64_MIN g 9 10 = Ok (0, 0) /\
  position INT64_MIN g 0 10 = Ok (0, 0) /\
  position INT64_MIN g 1 10 = Ok (0, 0).
Proof. repeat split; reflexivity. Qed.

Example no_layers_auto :
  actual_size INT64_MIN (init (-1, -1) 1 true) 0 = Ok (1, 1).
Proof. reflexivity. Qed.

Example zero_columns_requested :
  actual_size INT64_MIN (init (-1, 0) 1 true) 5 = Ok (1, 1).
Proof. reflexivity. Qed.

Example zero_stride_raises :
  actual_size INT64_MIN (init (-1, -1) 0 true) 5 = Raise ZeroDivisionError.
Proof. reflexivity. Qed.

(** * Further properties *)

(** ** Concrete runs of the placement properties *)


(** ** Concrete runs of the class as NumPy runs it *)

(** Closes a closed bound [a <= x < b]. *)
Ltac in_range := split; evaluate.

Lemma position_formula_bounded_witness :
  let g := init (-1, 3) (-2) true in
  enabled g = true /\ stride g <> 0 /\ 1 <= 11 < 2 ^ 63 /\ 0 <= 4 < 11 /\
  - 2 ^ 63 <= fst (size g) < 2 ^ 63 /\
  - 2 ^ 63 <= snd (size g) < 2 ^ 63 /\
  exists rows cols,
    NumPy.actual_size INT64_MIN g 11 = Ok (rows, cols) /\
    (rows * cols < 2 ^ 63 ->
     NumPy.position INT64_MIN g 4 11 =
     Ok (let remapped := if stride g <? 0 then 11 - 4 - 1 else 4 in
         let slot := (remapped / Z.abs (stride g)) mod (rows * cols) in
         (slot / cols, slot mod cols))).
Proof.
  intro g.
  assert (He : enabled g = true) by reflexivity.
  assert (Hs : stride g <> 0) by evaluate.
  assert (Hn : 1 <= 11 < 2 ^ 63) by in_range.
  assert (Hi : 0 <= 4 < 11) by lia.
  assert (Hr : - 2 ^ 63 <= fst (size g) < 2 ^ 63) by in_range.
  assert (Hc : - 2 ^ 63 <= snd (size g) < 2 ^ 63) by in_range.
  repeat (split; [assumption |]).
  exact (position_formula_bounded INT64_MIN g 4 11 He Hs Hn Hi Hr Hc).
Defined.

Lemma actual_size_formula_bounded_witness :
  let g := init (-1, -1) 3 true in
  enabled g = true /\ stride g <> 0 /\ Z.abs (stride g) < 2 ^ 1000 /\
  1 <= 20 <= 2 ^ 52 /\
  - 2 ^ 63 <= fst (size g) < 2 ^ 63 /\
  - 2 ^ 63 <= snd (size g) < 2 ^ 63 /\
  exists rows cols,
    NumPy.actual_size INT64_MIN g 20 = Ok (rows, cols) /\
    effective_size_rel g 20 rows cols.
Proof.
  intro g.
  assert (He : enabled g = true) by reflexivity.
  assert (Hs : stride g <> 0) by evaluate.
  assert (Hs' : Z.abs (stride g) < 2 ^ 1000) by evaluate.
  assert (Hn : 1 <= 20 <= 2 ^ 52) by in_range.
  assert (Hr : - 2 ^ 63 <= fst (size g) < 2 ^ 63) by in_range.
  assert (Hc : - 2 ^ 63 <= snd (size g) < 2 ^ 63) by in_range.
  repeat (split; [assumption |]).
  exact (actual_size_formula_bounded INT64_MIN g 20 He Hs Hs' Hn Hr Hc).
Defined.

Lemma position_in_bounds_bounded_witness :
  let g := init (2, 2) 2 true in
  enabled g = true /\ stride g <> 0 /\ 1 <= 10 < 2 ^ 63 /\ 0 <= 9 < 10 /\
  - 2 ^ 63 <= fst (size g) < 2 ^ 63 /\
  - 2 ^ 63 <= snd (size g) < 2 ^ 63 /\
  exists rows cols,
    NumPy.actual_size INT64_MIN g 10 = Ok (rows, cols) /\
    (rows * cols < 2 ^ 63 ->
     exists row col,
       NumPy.position INT64_MIN g 9 10 = Ok (row, col) /\
       0 <= row < rows /\ 0 <= col < cols).
Proof.
  intro g.
  assert (He : enabled g = true) by reflexivity.
  assert (Hs : stride g <> 0) by evaluate.
  assert (Hn : 1 <= 10 < 2 ^ 63) by in_range.
  assert (Hi : 0 <= 9 < 10) by lia.
  assert (Hr : - 2 ^ 63 <= fst (size g) < 2 ^ 63) by in_range.
  assert (Hc : - 2 ^ 63 <= snd (size g) < 2 ^ 63) by in_range.
  repeat (split; [assumption |]).
  exact (position_in_bounds_bounded INT64_MIN g 9 10 He Hs Hn Hi Hr Hc).
Defined.

Lemma actual_size_positive_bounded_witness :
  let g := init (-1, 0) 3 true in
  stride g <> 0 /\ 0 <= 0 < 2 ^ 1023 /\
  - 2 ^ 63 <= fst (size g) < 2 ^ 63 /\
  - 2 ^ 63 <= snd (size g) < 2 ^ 63 /\
  exists rows cols,
    NumPy.actual_size INT64_MIN g 0 = Ok (rows, cols) /\
    1 <= rows /\ 1 <= cols.
Proof.
  intro g.
  assert (Hs : stride g <> 0) by evaluate.
  assert (Hn : 0 <= 0 < 2 ^ 1023) by in_range.
  assert (Hr : - 2 ^ 63 <= fst (size g) < 2 ^ 63) by in_range.
  assert (Hc : - 2 ^ 63 <= snd (size g) < 2 ^ 63) by in_range.
  repeat (split; [assumption |]).
  exact (actual_size_positive_bounded INT64_MIN g 0 Hs Hn Hr Hc).
Defined.

(** The first input past the bounds on which the formula of C1 fails:
    two rows of [2^62] columns make [2^63] cells, the [int64] product
    wraps to [-2^63], and the row of index 5 comes out as -2 where the
    formula gives 0. *)
Lemma position_formula_wraps :
  let g := init (-1, 2 ^ 62) 1 true in
  let nlayers := 2 ^ 62 + 1024 in
  enabled g = true /\ stride g <> 0 /\ 1 <= nlayers /\ 0 <= 5 < nlayers /\
  NumPy.actual_size INT64_MIN g nlayers = Ok (2, 2 ^ 62) /\
  NumPy.position INT64_MIN g 5 nlayers = Ok (-2, 5) /\
  ~ (exists rows cols,
       NumPy.actual_size INT64_MIN g nlayers = Ok (rows, cols) /\
       NumPy.position INT64_MIN g 5 nlayers =
       Ok (let remapped :=
             if stride g <? 0 then nlayers - 5 - 1 else 5 in
           let slot := (remapped / Z.abs (stride g)) mod (rows * cols) in
           (slot / cols, slot mod cols))).
Proof.
  intros g nlayers.
  assert (Ha : NumPy.actual_size INT64_MIN g nlayers = Ok (2, 2 ^ 62))
    by (vm_compute; reflexivity).
  assert (Hp : NumPy.position INT64_MIN g 5 nlayers = Ok (-2, 5))
    by (vm_compute; reflexivity).
  split; [reflexivity |]. split; [evaluate |].
  split; [evaluate |]. split; [in_range |].
  split; [exact Ha |]. split; [exact Hp |].
  intros (rows & cols & Ha' & Hp').
  rewrite Ha in Ha'. injection Ha' as <- <-.
  rewrite Hp in Hp'. vm_compute in Hp'. discriminate Hp'.
Qed.

(** The first number of layers on which the sizing of C2 fails: the
    double nearest the square root of [2^52 + 1] is [2^26], so the code
    takes [2^26] columns, one fewer than the ceiling of the root. *)
Lemma actual_size_formula_rounds :
  let g := init (-1, -1) 1 true in
  let nlayers := 2 ^ 52 + 1 in
  enabled g = true /\ stride g <> 0 /\ 1 <= nlayers /\
  NumPy.actual_size INT64_MIN g nlayers = Ok (2 ^ 26 + 1, 2 ^ 26) /\
  ~ (exists rows cols,
       NumPy.actual_size INT64_MIN g nlayers = Ok (rows, cols) /\
       effective_size_rel g nlayers rows cols).
Proof.
  intros g nlayers.
  assert (Ha : NumPy.actual_size INT64_MIN g nlayers =
               Ok (2 ^ 26 + 1, 2 ^ 26)) by (vm_compute; reflexivity).
  split; [reflexivity |]. split; [evaluate |]. split; [evaluate |].
  split; [exact Ha |].
  intros (rows & cols & Ha' & n_cells & Hcells & Hrel).
  rewrite Ha in Ha'. injection Ha' as <- <-.
  cbv zeta in Hrel.
  destruct Hrel as (rows0 & cols0 & _ & Hcols & Hauto & _).
  destruct (Hauto (conj eq_refl eq_refl)) as [Hroot _].
  unfold is_ceiling_of_root in Hroot.
  subst nlayers. change (Z.abs (stride g)) with 1 in Hcells.
  destruct Hcells as [Hcells _]. specialize (Hcells ltac:(lia)).
  change (2 ^ 52) with 4503599627370496 in *.
  change (2 ^ 26) with 67108864 in *.
  assert (cols0 = 67108864) by lia. subst cols0. lia.
Qed.

(** On the input of [position_formula_wraps] the returned row, -2, is
    outside the grid of two rows. *)
Lemma position_in_bounds_wraps :
  let g := init (-1, 2 ^ 62) 1 true in
  let nlayers := 2 ^ 62 + 1024 in
  enabled g = true /\ stride g <> 0 /\ 1 <= nlayers /\ 0 <= 5 < nlayers /\
  ~ (exists rows cols row col,
       NumPy.actual_size INT64_MIN g nlayers = Ok (rows, cols) /\
       NumPy.position INT64_MIN g 5 nlayers = Ok (row, col) /\
       0 <= row < rows /\ 0 <= col < cols).
Proof.
  intros g nlayers.
  assert (Hp : NumPy.position INT64_MIN g 5 nlayers = Ok (-2, 5))
    by (vm_compute; reflexivity).
  split; [reflexivity |]. split; [evaluate |].
  split; [evaluate |]. split; [in_range |].
  intros (rows & cols & row & col & _ & Hp' & Hrow & _).
  rewrite Hp in Hp'. injection Hp' as <- <-. lia.
Qed.

(** With [2^1024] layers Python's division raises [OverflowError]:
    the quotient is beyond the largest double. *)
Lemma actual_size_overflow_error :
  let g := init (-1, -1) 1 true in
  stride g <> 0 /\ 0 <= 2 ^ 1024 /\
  NumPy.actual_size INT64_MIN g (2 ^ 1024) = Raise OverflowError /\
  ~ (exists rows cols,
       NumPy.actual_size INT64_MIN g (2 ^ 1024) = Ok (rows, cols) /\
       1 <= rows /\ 1 <= cols).
Proof.
  intros g.
  assert (Ha : NumPy.actual_size INT64_MIN g (2 ^ 1024) =
               Raise OverflowError) by (vm_compute; reflexivity).
  split; [evaluate |]. split; [evaluate |]. split; [exact Ha |].
  intros (rows & cols & Ha' & _). rewrite Ha in Ha'. discriminate Ha'.
Qed.

(** The scenarios of the specification and the degenerate inputs, at
    this level. *)

Example np_scenario_five_layers :
  let g := init (-1, -1) 1 true in
  NumPy.actual_size INT64_MIN g 5 = Ok (2, 3) /\
  NumPy.position INT64_MIN g 0 5 = Ok (0, 0) /\
  NumPy.position INT64_MIN g 2 5 = Ok (0, 2) /\
  NumPy.position INT64_MIN g 4 5 = Ok (1, 1).
Proof. vm_compute. repeat split; reflexivity. Qed.

Example np_scenario_wrap :
  let g := init (2, 2) 2 true in
  NumPy.position INT64_MIN g 8 10 = Ok (0, 0) /\
  NumPy.position INT64_MIN g 9 10 = Ok (0, 0) /\
  NumPy.position INT64_MIN g 0 10 = Ok (0, 0) /\
  NumPy.position INT64_MIN g 1 10 = Ok (0, 0).
Proof. vm_compute. repeat split; reflexivity. Qed.

Example np_zero_columns_requested :
  NumPy.actual_size INT64_MIN (init (-1, 0) 1 true) 5 = Ok (1, 1).
Proof. vm_compute. reflexivity. Qed.

Example np_zero_stride_run :
  NumPy.actual_size INT64_MIN (init (-1, -1) 0 true) 5 =
  Raise ZeroDivisionError.
Proof. vm_compute. reflexivity. Qed.

Example np_one_row_short :
  NumPy.actual_size INT64_MIN (init (-1, 1) 1 true) (2 ^ 53 + 1) =
  Ok (2 ^ 53, 1).
Proof. vm_compute. reflexivity. Qed.

(** ** Concrete runs of the further placement properties *)

Lemma position_unchecked_index_witness :
  let g := init (2, 3) (-2) true in
  enabled g = true /\ stride g <> 0 /\
  Z.abs (-7) < 2 ^ 62 /\ Z.abs 3 < 2 ^ 62 /\
  - 2 ^ 63 <= fst (size g) < 2 ^ 63 /\
  - 2 ^ 63 <= snd (size g) < 2 ^ 63 /\
  exists rows cols,
    NumPy.actual_size INT64_MIN g 3 = Ok (rows, cols) /\
    (rows * cols < 2 ^ 63 ->
     exists row col,
       NumPy.position INT64_MIN g (-7) 3 = Ok (row, col) /\
       0 <= row < rows /\ 0 <= col < cols).
Proof.
  intro g.
  assert (He : enabled g = true) by reflexivity.
  assert (Hs : stride g <> 0) by evaluate.
  assert (Hi : Z.abs (-7) < 2 ^ 62) by evaluate.
  assert (Hn : Z.abs 3 < 2 ^ 62) by evaluate.
  assert (Hr : - 2 ^ 63 <= fst (size g) < 2 ^ 63) by in_range.
  assert (Hc : - 2 ^ 63 <= snd (size g) < 2 ^ 63) by in_range.
  repeat (split; [assumption |]).
  exact (position_unchecked_index INT64_MIN g (-7) 3 He Hs Hi Hn Hr Hc).
Defined.

Lemma position_periodic_witness :
  let g := init (2, 2) (-2) true in
  enabled g = true /\ stride g <> 0 /\
  Z.abs 10 < 2 ^ 62 /\ Z.abs 1 < 2 ^ 62 /\
  Z.abs (1 + Z.abs (stride g) * 2 * 2) < 2 ^ 62 /\
  - 2 ^ 63 <= fst (size g) < 2 ^ 63 /\
  - 2 ^ 63 <= snd (size g) < 2 ^ 63 /\
  NumPy.actual_size INT64_MIN g 10 = Ok (2, 2) /\
  2 * 2 < 2 ^ 63 /\
  exists cell,
    NumPy.position INT64_MIN g (1 + Z.abs (stride g) * 2 * 2) 10 = Ok cell /\
    NumPy.position INT64_MIN g 1 10 = Ok cell.
Proof.
  intro g.
  assert (He : enabled g = true) by reflexivity.
  assert (Hs : stride g <> 0) by evaluate.
  assert (Hn : Z.abs 10 < 2 ^ 62) by evaluate.
  assert (Hi : Z.abs 1 < 2 ^ 62) by evaluate.
  assert (Hi' : Z.abs (1 + Z.abs (stride g) * 2 * 2) < 2 ^ 62) by evaluate.
  assert (Hr : - 2 ^ 63 <= fst (size g) < 2 ^ 63) by in_range.
  assert (Hc : - 2 ^ 63 <= snd (size g) < 2 ^ 63) by in_range.
  assert (Ha : NumPy.actual_size INT64_MIN g 10 = Ok (2, 2))
    by (vm_compute; reflexivity).
  assert (Hcells : 2 * 2 < 2 ^ 63) by evaluate.
  repeat (split; [assumption |]).
  exact (position_periodic INT64_MIN g 1 10 2 2
           He Hs Hn Hi Hi' Hr Hc Ha Hcells).
Defined.

Lemma auto_grid_has_room_witness :
  let g := init (-1, 4) 2 true in
  enabled g = true /\ stride g <> 0 /\ Z.abs (stride g) < 2 ^ 1000 /\
  1 <= 17 <= 2 ^ 52 /\ auto_sized g = true /\
  fst (size g) < 2 ^ 63 /\ snd (size g) < 2 ^ 63 /\
  exists rows cols,
    NumPy.actual_size INT64_MIN g 17 = Ok (rows, cols) /\
    ceil_quot 17 (Z.abs (stride g)) <= rows * cols.
Proof.
  intro g.
  assert (He : enabled g = true) by reflexivity.
  assert (Hs : stride g <> 0) by evaluate.
  assert (Hs' : Z.abs (stride g) < 2 ^ 1000) by evaluate.
  assert (Hn : 1 <= 17 <= 2 ^ 52) by in_range.
  assert (Hauto : auto_sized g = true) by reflexivity.
  assert (Hr : fst (size g) < 2 ^ 63) by evaluate.
  assert (Hc : snd (size g) < 2 ^ 63) by evaluate.
  repeat (split; [assumption |]).
  exact (auto_grid_has_room INT64_MIN g 17 He Hs Hs' Hn Hauto Hr Hc).
Defined.

Lemma position_row_major_witness :
  let g := init (-1, -1) 1 true in
  enabled g = true /\ stride g <> 0 /\ 5 < 2 ^ 63 /\ 0 <= 4 < 5 /\
  - 2 ^ 63 <= fst (size g) < 2 ^ 63 /\
  - 2 ^ 63 <= snd (size g) < 2 ^ 63 /\
  NumPy.actual_size INT64_MIN g 5 = Ok (2, 3) /\
  ceil_quot 5 (Z.abs (stride g)) <= 2 * 3 < 2 ^ 63 /\
  exists row col,
    NumPy.position INT64_MIN g 4 5 = Ok (row, col) /\
    row * 3 + col = adjusted g 4 5 / Z.abs (stride g).
Proof.
  intro g.
  assert (He : enabled g = true) by reflexivity.
  assert (Hs : stride g <> 0) by evaluate.
  assert (Hn : 5 < 2 ^ 63) by evaluate.
  assert (Hi : 0 <= 4 < 5) by lia.
  assert (Hr : - 2 ^ 63 <= fst (size g) < 2 ^ 63) by in_range.
  assert (Hc : - 2 ^ 63 <= snd (size g) < 2 ^ 63) by in_range.
  assert (Ha : NumPy.actual_size INT64_MIN g 5 = Ok (2, 3))
    by (vm_compute; reflexivity).
  assert (Hroom : ceil_quot 5 (Z.abs (stride g)) <= 2 * 3 < 2 ^ 63)
    by in_range.
  repeat (split; [assumption |]).
  exact (position_row_major INT64_MIN g 4 5 2 3 He Hs Hn Hi Hr Hc Ha Hroom).
Defined.

Lemma auto_grid_unit_stride_injective_witness :
  let g := init (3, -1) (-1) true in
  enabled g = true /\ Z.abs (stride g) = 1 /\ auto_sized g = true /\
  fst (size g) < 2 ^ 63 /\ snd (size g) < 2 ^ 63 /\ 7 <= 2 ^ 52 /\
  0 <= 2 < 7 /\ 0 <= 2 < 7 /\
  NumPy.position INT64_MIN g 2 7 = NumPy.position INT64_MIN g 2 7 /\
  2 = 2.
Proof.
  intro g.
  assert (He : enabled g = true) by reflexivity.
  assert (Hs : Z.abs (stride g) = 1) by reflexivity.
  assert (Hauto : auto_sized g = true) by reflexivity.
  assert (Hr : fst (size g) < 2 ^ 63) by evaluate.
  assert (Hc : snd (size g) < 2 ^ 63) by evaluate.
  assert (Hn : 7 <= 2 ^ 52) by evaluate.
  assert (Hi : 0 <= 2 < 7) by lia.
  assert (Heq : NumPy.position INT64_MIN g 2 7 = NumPy.position INT64_MIN g 2 7)
    by reflexivity.
  repeat (split; [assumption |]).
  exact (auto_grid_unit_stride_injective INT64_MIN g 2 2 7
           He Hs Hauto Hr Hc Hn Hi Hi Heq).
Defined.

Lemma auto_grid_near_square_witness :
  let g := init (-1, -1) 1 true in
  enabled g = true /\ stride g <> 0 /\ Z.abs (stride g) < 2 ^ 1000 /\
  1 <= 7 <= 2 ^ 52 /\ size g = (-1, -1) /\
  exists rows cols,
    NumPy.actual_size INT64_MIN g 7 = Ok (rows, cols) /\
    cols - 1 <= rows <= cols /\
    (rows - 1) * cols < ceil_quot 7 (Z.abs (stride g)).
Proof.
  intro g.
  assert (He : enabled g = true) by reflexivity.
  assert (Hs : stride g <> 0) by evaluate.
  assert (Hs' : Z.abs (stride g) < 2 ^ 1000) by evaluate.
  assert (Hn : 1 <= 7 <= 2 ^ 52) by in_range.
  assert (Hsize : size g = (-1, -1)) by reflexivity.
  repeat (split; [assumption |]).
  exact (auto_grid_near_square INT64_MIN g 7 He Hs Hs' Hn Hsize).
Defined.

(** ** Visual dispatch *)

Lemma create_from_skip {L : Type} (isinstance : L -> LayerClass -> bool)
  (before rest : VisualDict) (layer : L) :
  (forall k, In k (map fst before) -> isinstance layer k = false) ->
  create_from isinstance (before ++ rest) layer =
  create_from isinstance rest layer.
Proof.
  induction before as [| [k v] before IH]; intros Hnone.
  - reflexivity.
  - cbn [app create_from].
    rewrite (Hnone k) by (left; reflexivity).
    apply IH. intros k' Hk'. apply Hnone. right. exact Hk'.
Qed.

Lemma create_from_raises {L : Type} (isinstance : L -> LayerClass -> bool)
  (items : VisualDict) (layer : L) :
  create_from isinstance items layer = RaiseTypeError layer <->
  (forall k, In k (map fst items) -> isinstance layer k = false).
Proof.
  induction items as [| [k v] items IH].
  - split; [intros _ k [] | reflexivity].
  - cbn [create_from map fst]. split.
    + intros Hraise k' [<- | Hin].
      * destruct (isinstance layer k); [discriminate Hraise | reflexivity].
      * destruct (isinstance layer k); [discriminate Hraise |].
        apply IH; assumption.
    + intros Hnone. rewrite (Hnone k) by (left; reflexivity).
      apply IH. intros k' Hk'. apply Hnone. right. exact Hk'.
Qed.

Lemma create_from_unique {L : Type} (isinstance : L -> LayerClass -> bool)
  (items : VisualDict) (layer : L) (k : LayerClass) (v : VisualClass) :
  NoDup (map fst items) ->
  In (k, v) items ->
  isinstance layer k = true ->
  (forall k', In k' (map fst items) -> k' <> k ->
     isinstance layer k' = false) ->
  create_from isinstance items layer = Visual v layer.
Proof.
  induction items as [| [k0 v0] items IH]; intros Hnd Hin Hk Hothers.
  - destruct Hin.
  - cbn [map fst] in Hnd. inversion Hnd as [| ? ? Hfresh Hnd']; subst.
    cbn [create_from]. destruct Hin as [Heq | Hin].
    + injection Heq as -> ->. rewrite Hk. reflexivity.
    + assert (Hne : k0 <> k).
      { intros ->. apply Hfresh.
        change k with (fst (k, v)). apply in_map. exact Hin. }
      rewrite (Hothers k0) by (try left; auto).
      apply IH; try assumption.
      intros k' Hk' Hne'. apply Hothers; [right; exact Hk' | exact Hne'].
Qed.

Lemma layer_to_visual_keys_NoDup (async_octree : bool) :
  NoDup (map fst (layer_to_visual async_octree)).
Proof.
  destruct async_octree; cbn;
    repeat (constructor; [cbn; intuition discriminate |]); constructor.
Qed.

(** X10.  [create_vispy_visual] raises its [TypeError] exactly when the
    layer is an instance of none of the keys of the table, for either
    value of [config.async_octree]. *)
Theorem create_vispy_visual_raises_iff {L : Type}
  (isinstance : L -> LayerClass -> bool) (async_octree : bool) (layer : L) :
  create_vispy_visual isinstance async_octree layer = RaiseTypeError layer <->
  (forall layer_type,
     In layer_type (map fst (layer_to_visual async_octree)) ->
     isinstance layer layer_type = false).
Proof.
  unfold create_vispy_visual. apply create_from_raises.
Qed.

(** X11.  A layer that is an instance of exactly one key of the table gets
    the visual class the table pairs with that key. *)
Theorem create_vispy_visual_unique {L : Type}
  (isinstance : L -> LayerClass -> bool) (async_octree : bool) (layer : L)
  (layer_type : LayerClass) (visual_class : VisualClass) :
  In (layer_type, visual_class) (layer_to_visual async_octree) ->
  isinstance layer layer_type = true ->
  (forall other,
     In other (map fst (layer_to_visual async_octree)) ->
     other <> layer_type -> isinstance layer other = false) ->
  create_vispy_visual isinstance async_octree layer =
  Visual visual_class layer.
Proof.
  intros Hin Hk Hothers. unfold create_vispy_visual.
  apply (create_from_unique isinstance _ layer layer_type visual_class);
    try assumption.
  apply layer_to_visual_keys_NoDup.
Qed.

(** X12.  The loop returns at the first item whose key the layer is an
    instance of: the items before it must all fail the test, and the items
    after it are not consulted, whatever they are. *)
Theorem create_from_first_match {L : Type}
  (isinstance : L -> LayerClass -> bool) (before after : VisualDict)
  (layer_type : LayerClass) (visual_class : VisualClass) (layer : L) :
  (forall k, In k (map fst before) -> isinstance layer k = false) ->
  isinstance layer layer_type = true ->
  create_from isinstance (before ++ (layer_type, visual_class) :: after) layer
  = Visual visual_class layer.
Proof.
  intros Hnone Hk. rewrite create_from_skip by exact Hnone.
  cbn [create_from]. rewrite Hk. reflexivity.
Qed.

(** X13.  With [config.async_octree] set, an instance of [OctreeImage]
    gets the tiled visual although, being an image, it also passes the
    test of the [Image] item; without it the same layer gets the plain
    image visual. *)
Theorem octree_picked_over_image {L : Type}
  (isinstance : L -> LayerClass -> bool) (layer : L) :
  isinstance layer OctreeImage = true ->
  isinstance layer Image = true ->
  create_vispy_visual isinstance true layer =
  Visual VispyTiledImageLayer layer /\
  create_vispy_visual isinstance false layer =
  Visual VispyImageLayer layer.
Proof.
  intros Hoct Himg. unfold create_vispy_visual. cbn.
  rewrite Hoct, Himg. split; reflexivity.
Qed.

(** X14.  Setting [config.async_octree] changes nothing for the other
    layers: a layer that is not an instance of [OctreeImage] gets the same
    visual, or the same [TypeError], with and without it. *)
Theorem async_octree_only_for_octree {L : Type}
  (isinstance : L -> LayerClass -> bool) (layer : L) :
  isinstance layer OctreeImage = false ->
  create_vispy_visual isinstance true layer =
  create_vispy_visual isinstance false layer.
Proof.
  intros Hoct. unfold create_vispy_visual.
  change (layer_to_visual true)
    with ([(OctreeImage, VispyTiledImageLayer)] ++ layer_to_visual false).
  apply create_from_skip.
  intros k [<- | []]. exact Hoct.
Qed.

Lemma create_vispy_visual_unique_witness :
  In (Shapes, VispyShapesLayer) (layer_to_visual true) /\
  isinstance_by_class Shapes Shapes = true /\
  (forall other,
     In other (map fst (layer_to_visual true)) ->
     other <> Shapes -> isinstance_by_class Shapes other = false) /\
  create_vispy_visual isinstance_by_class true Shapes =
  Visual VispyShapesLayer Shapes.
Proof.
  assert (Hin : In (Shapes, VispyShapesLayer) (layer_to_visual true))
    by (cbn; tauto).
  assert (Hk : isinstance_by_class Shapes Shapes = true) by reflexivity.
  assert (Hothers : forall other,
             In other (map fst (layer_to_visual true)) ->
             other <> Shapes -> isinstance_by_class Shapes other = false)
    by (intros [] _ Hne; first [reflexivity | contradiction Hne; reflexivity]).
  repeat (split; [assumption |]).
  exact (create_vispy_visual_unique isinstance_by_class true Shapes
           Shapes VispyShapesLayer Hin Hk Hothers).
Defined.

Lemma create_from_first_match_witness :
  (forall k, In k (map fst [(Points, VispyPointsLayer)]) ->
     isinstance_by_class OctreeImage k = false) /\
  isinstance_by_class OctreeImage Image = true /\
  create_from isinstance_by_class
    ([(Points, VispyPointsLayer)] ++
     (Image, VispyImageLayer) :: [(OctreeImage, VispyTiledImageLayer)])
    OctreeImage
  = Visual VispyImageLayer OctreeImage.
Proof.
  assert (Hnone : forall k, In k (map fst [(Points, VispyPointsLayer)]) ->
                    isinstance_by_class OctreeImage k = false)
    by (intros k [<- | []]; reflexivity).
  assert (Hk : isinstance_by_class OctreeImage Image = true) by reflexivity.
  repeat (split; [assumption |]).
  exact (create_from_first_match isinstance_by_class
           [(Points, VispyPointsLayer)]
           [(OctreeImage, VispyTiledImageLayer)]
           Image VispyImageLayer OctreeImage Hnone Hk).
Defined.

Lemma octree_picked_over_image_witness :
  isinstance_by_class OctreeImage OctreeImage = true /\
  isinstance_by_class OctreeImage Image = true /\
  create_vispy_visual isinstance_by_class true OctreeImage =
  Visual VispyTiledImageLayer OctreeImage /\
  create_vispy_visual isinstance_by_class false OctreeImage =
  Visual VispyImageLayer OctreeImage.
Proof.
  assert (Hoct : isinstance_by_class OctreeImage OctreeImage = true)
    by reflexivity.
  assert (Himg : isinstance_by_class OctreeImage Image = true)
    by reflexivity.
  repeat (split; [assumption |]).
  exact (octree_picked_over_image isinstance_by_class OctreeImage Hoct Himg).
Defined.

Lemma async_octree_only_for_octree_witness :
  isinstance_by_class Tracks OctreeImage = false /\
  create_vispy_visual isinstance_by_class true Tracks =
  create_vispy_visual isinstance_by_class false Tracks.
Proof.
  assert (Hoct : isinstance_by_class Tracks OctreeImage = false)
    by reflexivity.
  split; [assumption |].
  exact (async_octree_only_for_octree isinstance_by_class Tracks Hoct).
Defined.
